(** * LinkedIn founder scraper: field extraction and downstream analysis

    A shallow embedding of [LinkedinFounderScraper.py] (the function
    [scrape_founder_profile]) and of [analysis.py] ([parse_experiences],
    [parse_education] and the frequency tables of
    [analyze_founder_profiles]), with the properties of the specification
    stated and proved over it.

    Python [str] values are sequences of Unicode code points; the browser
    document is a finite tree of elements queried by CSS selectors; Python
    dictionaries are finite maps. *)

From Stdlib Require Import NArith Ascii String.
From stdpp Require Import base option list strings gmap fin_maps.

Local Open Scope nat_scope.
Set Warnings "-register-all".

(* ===================================================================== *)
(** ** Python strings *)
(* ===================================================================== *)

Module Py.

(** A Python [str]: a sequence of code points. *)
Definition str := list N.

(** An ASCII literal of the source, character by character. *)
Definition lit (s : string) : str := map N_of_ascii (list_ascii_of_string s).

(** The separator [" · "] of the source: SPACE, U+00B7 MIDDLE DOT, SPACE. *)
Definition middle_dot : N := 183%N.
Definition sep : str := [32%N; middle_dot; 32%N].

(** ['\n'] and [' ']. *)
Definition nl : str := [10%N].
Definition space : str := [32%N].

(** [str.isspace] on one code point: the characters [str.strip()] removes. *)
Definition isspace (c : N) : bool :=
  ((9 <=? c) && (c <=? 13)          (* TAB, LF, VT, FF, CR *)
   || (28 <=? c) && (c <=? 32)      (* FS, GS, RS, US, SPACE *)
   || (c =? 133) || (c =? 160)      (* NEL, NO-BREAK SPACE *)
   || (c =? 5760)
   || (8192 <=? c) && (c <=? 8202)
   || (c =? 8232) || (c =? 8233) || (c =? 8239) || (c =? 8287)
   || (c =? 12288))%N.

Fixpoint lstrip (s : str) : str :=
  match s with
  | c :: s' => if isspace c then lstrip s' else s
  | [] => []
  end.

Definition rstrip (s : str) : str := rev (lstrip (rev s)).

(** [s.strip()] *)
Definition strip (s : str) : str := rstrip (lstrip s).

(** Truth value of a string: [bool(s)], true exactly for non-empty [s]. *)
Definition truthy (s : str) : bool :=
  match s with [] => false | _ :: _ => true end.

(** [s.startswith(p)] *)
Fixpoint startswith (p s : str) : bool :=
  match p, s with
  | [], _ => true
  | _ :: _, [] => false
  | a :: p', b :: s' => (a =? b)%N && startswith p' s'
  end.

(** The first occurrence of [p] in [s], scanning from the left:
    the text before it and the text after it ([s.partition(p)] without
    the middle component), [None] when [p] does not occur. *)
Fixpoint cut (p s : str) : option (str * str) :=
  if startswith p s then Some ([], drop (length p) s)
  else match s with
       | [] => None
       | c :: s' =>
           match cut p s' with
           | Some (a, b) => Some (c :: a, b)
           | None => None
           end
       end.

(** [p in s] *)
Definition contains (p s : str) : bool :=
  match cut p s with Some _ => true | None => false end.

(** [s.split(p)] for a non-empty [p]: cut at every occurrence, left to
    right, occurrences not overlapping. Every cut shortens the text, so
    [length s] rounds are enough. *)
Fixpoint split_rounds (n : nat) (p s : str) : list str :=
  match n with
  | 0 => [s]
  | S n' =>
      match cut p s with
      | None => [s]
      | Some (a, b) => a :: split_rounds n' p b
      end
  end.

Definition split (p s : str) : list str := split_rounds (length s) p s.

(** [p.join(parts)] *)
Fixpoint join (p : str) (parts : list str) : str :=
  match parts with
  | [] => []
  | [a] => a
  | a :: rest => a ++ p ++ join p rest
  end.

(** [s.replace(old, new)] for a non-empty [old]. *)
Definition replace (old new s : str) : str := join new (split old s).

(** [s.lower()] on the ASCII letters. *)
Definition lower_char (c : N) : N :=
  if ((65 <=? c) && (c <=? 90))%N then (c + 32)%N else c.
Definition lower (s : str) : str := map lower_char s.

End Py.

Import Py.

(* ===================================================================== *)
(** ** The document tree and its queries *)
(* ===================================================================== *)

Module Dom.

(** An element of the page: tag name (lower case, as CSS type selectors
    are matched case-insensitively in HTML), [id] attribute, class list,
    the text Selenium reports for it ([WebElement.text]) and its child
    elements in document order. *)
Inductive Element : Type :=
  mkElement {
    tag : string;
    elem_id : option string;
    classes : list string;
    text : str;
    children : list Element
  }.

(** A [WebElement]: an element together with the chain of its ancestors,
    nearest first. *)
Record Node : Type := mkNode { elem : Element; ancestors : list Element }.

Definition node_text (n : Node) : str := text (elem n).

(** All proper descendants of [e] in document order (preorder). *)
Fixpoint descendants (ancs : list Element) (e : Element) {struct e} : list Node :=
  flat_map (fun c => mkNode c (e :: ancs) :: descendants (e :: ancs) c)
           (children e).

(** Every element of the document, the root included. *)
Definition all_nodes (doc : Element) : list Node :=
  mkNode doc [] :: descendants [] doc.

(** *** CSS selectors

    The selectors of the source are compound selectors ([tag], [.class],
    [tag.class.class]) joined by the descendant combinator (a space). *)

Record compound : Type := mkCompound { c_tag : option string; c_classes : list string }.

Fixpoint split_char (c : ascii) (s : string) : list string :=
  match s with
  | EmptyString => [EmptyString]
  | String a s' =>
      if Ascii.eqb a c then EmptyString :: split_char c s'
      else match split_char c s' with
           | w :: ws => String a w :: ws
           | [] => [String a EmptyString]
           end
  end.

Definition parse_compound (s : string) : compound :=
  match split_char "." s with
  | t :: cls => mkCompound (if String.eqb t "" then None else Some t) cls
  | [] => mkCompound None []
  end.

(** The compounds of a selector, outermost first, the subject last. *)
Definition parse_selector (s : string) : list compound :=
  map parse_compound (split_char " " s).

Definition matches_compound (c : compound) (e : Element) : bool :=
  match c_tag c with
  | Some t => String.eqb t (tag e)
  | None => true
  end
  && forallb (fun k => existsb (String.eqb k) (classes e)) (c_classes c).

(** The outer compounds, innermost first, each matched by some ancestor
    further up than the previous one. *)
Fixpoint match_up (outer : list compound) (ancs : list Element) : bool :=
  match outer, ancs with
  | [], _ => true
  | _ :: _, [] => false
  | c :: outer', a :: ancs' =>
      if matches_compound c a then match_up outer' ancs' else match_up outer ancs'
  end.

Definition matches (sel : list compound) (n : Node) : bool :=
  match rev sel with
  | [] => false
  | subject :: outer => matches_compound subject (elem n) && match_up outer (ancestors n)
  end.

(** [element.find_elements(By.CSS_SELECTOR, css)]: the descendants of the
    element that match, in document order. *)
Definition find_elements (n : Node) (css : string) : list Node :=
  List.filter (matches (parse_selector css)) (descendants (ancestors n) (elem n)).

(** [driver.find_elements(By.CSS_SELECTOR, css)] *)
Definition driver_find_elements (doc : Element) (css : string) : list Node :=
  List.filter (matches (parse_selector css)) (all_nodes doc).

(** [driver.find_element(By.CSS_SELECTOR, css)]: the first match;
    [None] stands for [NoSuchElementException]. *)
Definition driver_find_element (doc : Element) (css : string) : option Node :=
  head (driver_find_elements doc css).

(** [driver.find_element(By.ID, i)] *)
Definition driver_find_by_id (doc : Element) (i : string) : option Node :=
  head (List.filter
          (fun n => match elem_id (elem n) with
                    | Some j => String.eqb i j
                    | None => false
                    end)
          (all_nodes doc)).

(** The script run on the anchor:
    [while (element && element.tagName !== 'SECTION') element = element.parentElement;
     return element;] *)
Fixpoint ascend (e : Element) (ancs : list Element) : option Node :=
  if String.eqb (tag e) "section" then Some (mkNode e ancs)
  else match ancs with
       | [] => None
       | p :: ancs' => ascend p ancs'
       end.

Definition parent_section (anchor : Node) : option Node :=
  ascend (elem anchor) (ancestors anchor).

End Dom.

Import Dom.

(* ===================================================================== *)
(** ** [scrape_founder_profile] *)
(* ===================================================================== *)

Module Scraper.

(** A loaded page answers every query: the only exception of the
    extraction code that is modelled is [NoSuchElementException] of
    [find_element], as [None]. The [try]/[except] blocks around the
    queries then have nothing else to catch, and [all_sections] is always
    bound when the education block tests for it. *)

(** An entry dictionary ([experience_data], [education_data]). *)
Abbreviation entry := (gmap string str).

(** The values stored in [data]. *)
Inductive value : Type :=
  | VNone
  | VStr (s : str)
  | VList (l : list entry).

(** What [driver.get(profile_url)] leaves behind: an exception, or a
    loaded page with the address the browser ended up at. *)
Inductive Navigation : Type :=
  | NavError
  | Loaded (current_url : str) (page : Element).

(** *** Selector lists of the source *)

Definition name_selectors : list string :=
  [ "h1.text-heading-xlarge"; "div.ph5.pb5 h1";
    "h1.sJlATPGtyhrnuKlKqeFAWOzgrMgdvKOBE"; "h1.inline.t-24" ]%string.

Definition headline_selectors : list string :=
  [ "div.text-body-medium.break-words"; "div.text-body-medium";
    "div.ph5.pb5 div.text-body-medium" ]%string.

Definition title_selectors : list string :=
  [ "div.mr1.t-bold"; "div.align-items-center.mr1.t-bold"; "span.t-bold";
    "span.t-16.t-bold"; ".t-bold"; "div.align-items-center" ]%string.

Definition company_selectors : list string :=
  [ "span.t-14.t-normal"; "span.t-14.t-normal.t-black";
    "span.pv-entity__secondary-title"; ".t-14.t-normal" ]%string.

Definition date_selectors : list string :=
  [ "span.t-14.t-normal.t-black--light"; "span.pv-entity__date-range";
    ".t-14.t-normal.t-black--light" ]%string.

Definition school_selectors : list string :=
  [ "div.mr1.hoverable-link-text.t-bold";
    "div.align-items-center.mr1.hoverable-link-text.t-bold"; "span.t-bold";
    "h3.pv-entity__school-name"; ".t-bold"; "div.align-items-center" ]%string.

Definition degree_selectors : list string :=
  [ "span.t-14.t-normal"; "span.pv-entity__secondary-title";
    "p.pv-entity__degree-name"; ".t-14.t-normal" ]%string.

Definition edu_date_selectors : list string :=
  [ "span.t-14.t-normal.t-black--light"; "p.pv-entity__dates";
    ".t-14.t-normal.t-black--light" ]%string.

(** *** Name and headline

    [for selector in selectors: try: el = driver.find_element(..);
     data[key] = el.text.strip(); break; except NoSuchElementException: continue] *)
Fixpoint first_element_text (doc : Element) (selectors : list string) : option str :=
  match selectors with
  | [] => None
  | selector :: rest =>
      match driver_find_element doc selector with
      | Some el => Some (strip (node_text el))
      | None => first_element_text doc rest
      end
  end.

(** *** Section locator *)

(** [for header in headers: if label in header.text: ...; break]:
    whether the loop assigns the section. *)
Fixpoint scan_headers (label : str) (headers : list Node) : bool :=
  match headers with
  | [] => false
  | header :: rest =>
      if contains label (node_text header) then true else scan_headers label rest
  end.

(** [for i, section in enumerate(all_sections): headers = section.find_elements("h2"); ...;
     if experience_section: break] *)
Fixpoint scan_sections (label : str) (all_sections : list Node) : option Node :=
  match all_sections with
  | [] => None
  | section :: rest =>
      if scan_headers label (find_elements section "h2") then Some section
      else scan_sections label rest
  end.

(** The two blocks that set [experience_section] / [education_section]:
    the heading scan, then the ascent from the anchor. *)
Definition locate_section (doc : Element) (all_sections : list Node)
           (label : str) (anchor : string) : option Node :=
  match scan_sections label all_sections with
  | Some section => Some section
  | None =>
      match driver_find_by_id doc anchor with
      | Some exp_anchor => parent_section exp_anchor
      | None => None
      end
  end.

(** *** Item enumerator: approaches 1, 2 and 3 *)

Definition is_empty {A} (l : list A) : bool :=
  match l with [] => true | _ :: _ => false end.

Definition enumerate_items (section : Node) : list Node :=
  let experience_items := [] in
  (* Approach 1 *)
  let experience_items :=
    let items := find_elements section "li.artdeco-list__item" in
    if is_empty items then experience_items else items in
  (* Approach 2 *)
  let experience_items :=
    if is_empty experience_items then
      match find_elements section "ul" with
      | ul0 :: _ =>
          let items := find_elements ul0 "li" in
          if is_empty items then experience_items else items
      | [] => experience_items
      end
    else experience_items in
  (* Approach 3 *)
  let experience_items :=
    if is_empty experience_items then
      let items := find_elements section "div.display-flex.flex-column" in
      if is_empty items then experience_items else items
    else experience_items in
  experience_items.

(** *** Field extractor *)

(** [for selector in selectors: els = item.find_elements(selector);
     if els: ... els[0].text.strip() ...; break] *)
Fixpoint first_match (item : Node) (selectors : list string) : option str :=
  match selectors with
  | [] => None
  | selector :: rest =>
      match find_elements item selector with
      | el :: _ => Some (strip (node_text el))
      | [] => first_match item rest
      end
  end.

(** [key not in d or not d[key]] *)
Definition missing (key : string) (d : entry) : bool :=
  match d !! key with
  | None => true
  | Some v => negb (truthy v)
  end.

(** [lines = item.text.split('\n')] *)
Definition text_lines (item : Node) : list str := split nl (node_text item).

(** A field read by the selector loop and then, when still missing, from
    line [index] of the item text (guarded by [if lines:] for index 0 and
    by [len(lines) > index] otherwise; [split] never returns an empty
    list). The blocks for title, date range, school and degree. *)
Record FieldSpec : Type :=
  mkFieldSpec { key : string; selectors : list string; index : nat }.

Definition extract_field (spec : FieldSpec) (item : Node) (d : entry) : entry :=
  let d :=
    match first_match item (selectors spec) with
    | Some t => <[key spec := t]> d
    | None => d
    end in
  if missing (key spec) d then
    match text_lines item !! index spec with
    | Some line => <[key spec := strip line]> d
    | None => d
    end
  else d.

(** The compound parse of the company text, as written in both the
    selector loop and the text fallback. *)
Definition set_company (company_text : str) (d : entry) : entry :=
  if contains sep company_text then
    let company_parts := split sep company_text in
    <["employment_type" := match company_parts !! 1 with
                           | Some p => p
                           | None => []
                           end]>
      (<["company" := match company_parts !! 0 with
                      | Some p => p
                      | None => []
                      end]> d)
  else
    <["employment_type" := []]> (<["company" := company_text]> d).

Definition extract_company (item : Node) (d : entry) : entry :=
  let d :=
    match first_match item company_selectors with
    | Some company_text => set_company company_text d
    | None => d
    end in
  if missing "company" d then
    match text_lines item !! 1 with
    | Some line => set_company (strip line) d
    | None => d
    end
  else d.

Definition title_spec : FieldSpec := mkFieldSpec "title" title_selectors 0.
Definition date_spec : FieldSpec := mkFieldSpec "date_range" date_selectors 2.
Definition school_spec : FieldSpec := mkFieldSpec "school" school_selectors 0.
Definition degree_spec : FieldSpec := mkFieldSpec "degree" degree_selectors 1.
Definition edu_date_spec : FieldSpec := mkFieldSpec "date_range" edu_date_selectors 2.

(** The body of the loop over [experience_items], up to the test. *)
Definition extract_experience (item : Node) : entry :=
  let experience_data : entry := ∅ in
  let experience_data := extract_field title_spec item experience_data in
  let experience_data := extract_company item experience_data in
  let experience_data := extract_field date_spec item experience_data in
  experience_data.

(** The body of the loop over [education_items], up to the test. *)
Definition extract_education (edu : Node) : entry :=
  let education_data : entry := ∅ in
  let education_data := extract_field school_spec edu education_data in
  let education_data := extract_field degree_spec edu education_data in
  let education_data := extract_field edu_date_spec edu education_data in
  education_data.

(** [any(d.values())] *)
Definition any_values (d : entry) : bool :=
  existsb truthy (snd <$> map_to_list d).

(** [for item in items: d = ...; if any(d.values()): out.append(d)] *)
Fixpoint process_items (extract : Node -> entry) (items : list Node)
         (out : list entry) : list entry :=
  match items with
  | [] => out
  | item :: rest =>
      let d := extract item in
      process_items extract rest (if any_values d then out ++ [d] else out)
  end.

(** One of the two section blocks: locate, enumerate, extract. *)
Definition scrape_section (doc : Element) (all_sections : list Node)
           (label : str) (anchor : string) (extract : Node -> entry) : list entry :=
  match locate_section doc all_sections label anchor with
  | Some section => process_items extract (enumerate_items section) []
  | None => []
  end.

(** *** The whole function *)

Definition initial_data (profile_url : str) : gmap string value :=
  <["education" := VList []]>
    (<["experiences" := VList []]>
       (<["headline" := VNone]>
          (<["name" := VNone]>
             (<["profile_url" := VStr profile_url]> ∅)))).

(** ["login" in driver.current_url or "authwall" in driver.current_url] *)
Definition redirected (current_url : str) : bool :=
  contains (lit "login") current_url || contains (lit "authwall") current_url.

Definition scrape_founder_profile (nav : Navigation) (profile_url : str)
  : gmap string value :=
  let data := initial_data profile_url in
  match nav with
  | NavError => data
  | Loaded current_url doc =>
      if redirected current_url then data
      else
        (* NAME *)
        let data :=
          match first_element_text doc name_selectors with
          | Some t => <["name" := VStr t]> data
          | None => data
          end in
        (* HEADLINE *)
        let data :=
          match first_element_text doc headline_selectors with
          | Some t => <["headline" := VStr t]> data
          | None => data
          end in
        (* EXPERIENCE *)
        let all_sections := driver_find_elements doc "section.artdeco-card" in
        let data :=
          <["experiences" :=
              VList (scrape_section doc all_sections (lit "Experience")
                                    "experience" extract_experience)]> data in
        (* EDUCATION *)
        let data :=
          <["education" :=
              VList (scrape_section doc all_sections (lit "Education")
                                    "education" extract_education)]> data in
        data
  end.

End Scraper.

Import Scraper.

(* ===================================================================== *)
(** ** [analysis.py] *)
(* ===================================================================== *)

Module Analysis.

(** A decoded JSON document, as [json.loads] returns it. *)
Inductive json : Type :=
  | JNull
  | JBool (b : bool)
  | JNum (digits : str)
  | JStr (s : str)
  | JArr (items : list json)
  | JObj (members : list (str * json)).

(** A cell of the [experiences] or [education] column as [pd.read_csv]
    hands it to [apply]: a missing value (NaN), a text, or a number (when
    pandas infers a numeric column). *)
Inductive cell : Type :=
  | Missing
  | Text (s : str)
  | Number (digits : str).

Inductive exn : Type := AttributeError | JSONDecodeError | TypeError.

(** The outcome of a call: a returned value or a raised exception. *)
Inductive outcome (A : Type) : Type :=
  | Return (a : A)
  | Raise (e : exn).
Arguments Return {A} a.
Arguments Raise {A} e.

Definition bind {A B} (m : outcome A) (k : A -> outcome B) : outcome B :=
  match m with
  | Return a => k a
  | Raise e => Raise e
  end.

Notation "'let!' x ':=' m 'in' k" := (bind m (fun x => k))
  (at level 10, x name, m at level 100, k at level 200).

(** [try: body except (json.JSONDecodeError, TypeError): handler] *)
Definition try_except {A} (body : outcome A) (handler : outcome A) : outcome A :=
  match body with
  | Raise JSONDecodeError | Raise TypeError => handler
  | other => other
  end.

(** [pd.isna(x)] on a scalar cell. *)
Definition isna (x : cell) : bool :=
  match x with Missing => true | _ => false end.

(** [x.strip()]: defined on text only; a float or an integer has no such
    attribute. *)
Definition cell_strip (x : cell) : outcome str :=
  match x with
  | Text s => Return (strip s)
  | _ => Raise AttributeError
  end.

Section Decoder.

(** The JSON decoder of the standard library on a text:
    [None] stands for [json.JSONDecodeError]. *)
Variable loads : str -> option json.

(** [json.loads(x)] *)
Definition json_loads (x : cell) : outcome json :=
  match x with
  | Text s =>
      match loads s with
      | Some v => Return v
      | None => Raise JSONDecodeError
      end
  | _ => Raise TypeError
  end.

Definition parse_experiences (exp_string : cell) : outcome json :=
  if isna exp_string then Return (JArr [])
  else
    let! stripped := cell_strip exp_string in
    if is_empty stripped then Return (JArr [])
    else try_except (json_loads exp_string) (Return (JArr [])).

Definition parse_education (edu_string : cell) : outcome json :=
  if isna edu_string then Return (JArr [])
  else
    let! stripped := cell_strip edu_string in
    if is_empty stripped then Return (JArr [])
    else try_except (json_loads edu_string) (Return (JArr [])).

End Decoder.

(** [edu.get(key, '')] on an education entry written by the scraper. *)
Definition get (edu : entry) (key : string) : str :=
  match edu !! key with
  | Some v => v
  | None => []
  end.

(** [edu.get(key, '').replace('\n', ' ').strip()] *)
Definition normalise (edu : entry) (key : string) : str :=
  strip (replace nl space (get edu key)).

(** The loop that fills [all_degrees] and [all_schools]:
    [for edus in df['parsed_education']: for edu in edus: ...] *)
Definition collect_edu (acc : list str * list str) (edu : entry) : list str * list str :=
  let '(all_degrees, all_schools) := acc in
  let deg := normalise edu "degree" in
  let sch := normalise edu "school" in
  let all_degrees := if truthy deg then all_degrees ++ [deg] else all_degrees in
  let all_schools := if truthy sch then all_schools ++ [sch] else all_schools in
  (all_degrees, all_schools).

Definition collect (parsed_education : list (list entry)) : list str * list str :=
  fold_left (fun acc edus => fold_left collect_edu edus acc) parsed_education ([], []).

(** [pd.Series(values).value_counts()], read at one key. *)
Definition value_counts (values : list str) (k : str) : nat :=
  length (List.filter (fun v => bool_decide (v = k)) values).

Definition degree_counts (parsed_education : list (list entry)) : str -> nat :=
  value_counts (fst (collect parsed_education)).

Definition school_counts (parsed_education : list (list entry)) : str -> nat :=
  value_counts (snd (collect parsed_education)).

End Analysis.

Import Analysis.

(* ===================================================================== *)
(** ** Notions used in the statements *)
(* ===================================================================== *)

(** No white space at either end. *)
Definition trimmed (s : str) : Prop :=
  (forall c, head s = Some c -> isspace c = false) /\
  (forall c, last s = Some c -> isspace c = false).

(** [p] occurs in [s] (code point by code point, so case-sensitively). *)
Definition occurs_in (p s : str) : Prop := exists a b, s = a ++ p ++ b.

(** Some field of the entry is a non-empty string. *)
Definition has_nonempty_field (d : entry) : Prop :=
  exists k v, d !! k = Some v /\ v <> [].

(** The company text the experience block parses: the trimmed text of the
    first selector match when that leaves a company, otherwise the trimmed
    second line of the item text, otherwise the (empty) selector text. *)
Definition company_text_of (item : Node) (t : str) : Prop :=
  (first_match item company_selectors = Some t /\ t <> [])
  \/ ((first_match item company_selectors = None
       \/ first_match item company_selectors = Some [])
      /\ strip <$> (text_lines item !! 1) = Some t)
  \/ (first_match item company_selectors = Some []
      /\ text_lines item !! 1 = None /\ t = []).

(** The two values the compound parse stores: the text before the first
    separator (the whole text when there is none), and the text between
    the first separator and the next one (up to the end when there is no
    other; empty when there is no separator at all). *)
Definition company_of (t : str) : str :=
  match cut sep t with Some (a, _) => a | None => t end.

Definition employment_type_of (t : str) : str :=
  match cut sep t with
  | Some (_, b) => match cut sep b with Some (e, _) => e | None => b end
  | None => []
  end.

(** The shape of a record: exactly the five keys, the address under
    [profile_url], name and headline [None] or a trimmed string, the two
    sequences lists. *)
Definition well_shaped (profile_url : str) (data : gmap string value) : Prop :=
  dom data = {[ "profile_url"; "name"; "headline"; "experiences"; "education" ]}
  /\ data !! "profile_url" = Some (VStr profile_url)
  /\ (data !! "name" = Some VNone
      \/ exists t, data !! "name" = Some (VStr t) /\ trimmed t)
  /\ (data !! "headline" = Some VNone
      \/ exists t, data !! "headline" = Some (VStr t) /\ trimmed t)
  /\ (exists l, data !! "experiences" = Some (VList l))
  /\ (exists l, data !! "education" = Some (VList l)).

(** Some [h2] below the card has a text in which the label occurs. *)
Definition has_heading (label : str) (section : Node) : Prop :=
  exists h, h ∈ find_elements section "h2" /\ occurs_in label (node_text h).

(** The [li] elements that are children of the node, as nodes. *)
Definition child_items (ul : Node) : list Node :=
  map (fun c => mkNode c (elem ul :: ancestors ul))
      (List.filter (fun c => String.eqb (tag c) "li") (children (elem ul))).

(** The [li] elements anywhere below the node, in document order. *)
Definition li_descendants (ul : Node) : list Node :=
  List.filter (fun n => String.eqb (tag (elem n)) "li")
              (descendants (ancestors ul) (elem ul)).

(** Every line break replaced by one space. *)
Definition breaks_to_spaces (s : str) : str :=
  map (fun c => if (c =? 10)%N then 32%N else c) s.

(** What a query on the item returns, as far as the extractor reads it:
    the texts of the matches. *)
Definition same_observations (sels : list string) (item item' : Node) : Prop :=
  node_text item = node_text item'
  /\ forall s, s ∈ sels ->
       map node_text (find_elements item s) = map node_text (find_elements item' s).

(* ===================================================================== *)
(** ** Sample documents *)
(* ===================================================================== *)

Module Sample.

(** An element without [id]. *)
Definition el (t : string) (cls : list string) (tx : str) (ch : list Element) : Element :=
  mkElement t None cls tx ch.

(** ["Acme Corp · Full-time · Remote"] *)
Definition acme_remote : str :=
  lit "Acme Corp" ++ sep ++ lit "Full-time" ++ sep ++ lit "Remote".

(** An experience item without any of the class names the selectors look
    for; its text is ["Founder\nAcme Corp · Full-time · Remote"]. *)
Definition remote_item : Node :=
  mkNode (el "li" [] (lit "Founder" ++ nl ++ acme_remote)
             [ el "div" [] (lit "Founder") [];
               el "div" [] acme_remote [] ])
         [].

(** The entry text of scenario A:
    ["VP Engineering\nAcme Corp · Full-time\nJan 2020 - Present"]. *)
Definition scenario_a_text : str :=
  lit "VP Engineering" ++ nl ++ lit "Acme Corp" ++ sep ++ lit "Full-time"
  ++ nl ++ lit "Jan 2020 - Present".

(** An item with that text and plain markup. *)
Definition scenario_a_item : Node :=
  mkNode (el "li" [] scenario_a_text
             [ el "div" [] (lit "VP Engineering") [];
               el "div" [] (lit "Acme Corp" ++ sep ++ lit "Full-time") [];
               el "div" [] (lit "Jan 2020 - Present") [] ])
         [].

(** A profile page with a name, a headline and an experience card of two
    list items, the second one blank; no education card, no anchors. *)
Definition job_el : Element :=
  el "li" ["artdeco-list__item"] scenario_a_text
     [ el "div" [] (lit "VP Engineering") [];
       el "div" [] (lit "Acme Corp" ++ sep ++ lit "Full-time") [];
       el "div" [] (lit "Jan 2020 - Present") [] ].

Definition blank_el : Element := el "li" ["artdeco-list__item"] [] [].

Definition jobs_el : Element := el "ul" [] scenario_a_text [job_el; blank_el].

Definition card_el : Element :=
  el "section" ["artdeco-card"] (lit "Experience" ++ nl ++ scenario_a_text)
     [ el "h2" [] (lit "Experience") []; jobs_el ].

Definition body_el : Element :=
  el "body" [] []
     [ el "h1" ["text-heading-xlarge"] (lit "Ada Lovelace") [];
       el "div" ["text-body-medium"] (lit "Founder") [];
       card_el ].

Definition page : Element := el "html" [] [] [body_el].

Definition card : Node := mkNode card_el [body_el; page].
Definition job : Node := mkNode job_el [jobs_el; card_el; body_el; page].
Definition blank : Node := mkNode blank_el [jobs_el; card_el; body_el; page].

Definition page_url : str := lit "https://www.linkedin.com/in/ada/".

(** An item whose bold span is empty: the title is only in the text. *)
Definition hollow_item : Node :=
  mkNode (el "li" [] (lit "Engineer" ++ nl ++ lit "Initech")
             [ el "span" ["t-bold"] [] [];
               el "div" [] (lit "Engineer") [];
               el "div" [] (lit "Initech") [] ])
         [].

(** An item whose bold span carries the title, under a line of its own. *)
Definition badge_item : Node :=
  mkNode (el "li" [] (lit "Promoted" ++ nl ++ lit "Engineer")
             [ el "div" [] (lit "Promoted") [];
               el "span" ["t-bold"] (lit "Engineer") [] ])
         [].

(** A page whose education block has no card and no heading, only the
    anchor inside a plain section. *)
Definition anchor_el : Element := mkElement "div" (Some "education"%string) [] [] [].

Definition school_el : Element :=
  el "li" [] (lit "MIT" ++ nl ++ lit "BSc" ++ nl ++ lit "2001") [].

Definition plain_section_el : Element :=
  el "section" [] (lit "MIT" ++ nl ++ lit "BSc" ++ nl ++ lit "2001")
     [ el "div" [] [] [anchor_el]; el "ul" [] [] [school_el] ].

Definition anchored_page : Element :=
  el "html" [] [] [ el "body" [] [] [plain_section_el] ].

(** A section whose list has a nested list: a company with a role
    under it. *)
Definition role_el : Element := el "li" [] (lit "CEO") [].

Definition roles_el : Element := el "ul" [] (lit "CEO") [role_el].

Definition company_el : Element :=
  el "li" [] (lit "Acme" ++ nl ++ lit "CEO") [roles_el].

Definition companies_el : Element :=
  el "ul" [] (lit "Acme" ++ nl ++ lit "CEO") [company_el].

Definition nested_section_el : Element :=
  el "section" [] (lit "Acme" ++ nl ++ lit "CEO") [companies_el].

Definition nested_section : Node := mkNode nested_section_el [].
Definition companies : Node := mkNode companies_el [nested_section_el].
Definition roles : Node :=
  mkNode roles_el [company_el; companies_el; nested_section_el].

(** The text [[{"school": "MIT"}]] and its decoding; a decoder that
    knows this text and the empty list only. *)
Definition quote : str := [34%N].

Definition mit_text : str :=
  lit "[{" ++ quote ++ lit "school" ++ quote ++ lit ": "
  ++ quote ++ lit "MIT" ++ quote ++ lit "}]".

Definition mit_json : json := JArr [JObj [(lit "school", JStr (lit "MIT"))]].

Definition loads_known (s : str) : option json :=
  if bool_decide (s = mit_text) then Some mit_json
  else if bool_decide (s = lit "[]") then Some (JArr [])
  else None.

(** Scenario C: an education item whose degree is rendered on two lines. *)
Definition bachelor : str := lit "Bachelor's" ++ nl ++ lit "of Science".

Definition bachelor_item : Node :=
  mkNode (el "li" [] (lit "MIT" ++ nl ++ bachelor ++ nl ++ lit "2001")
             [ el "span" ["t-bold"] (lit "MIT") [];
               el "span" ["t-14"; "t-normal"] bachelor [];
               el "span" ["t-14"; "t-normal"; "t-black--light"] (lit "2001") [] ])
         [].

(** The badge item again, this time inside a list. *)
Definition badge_in_list : Node :=
  mkNode (elem badge_item) [el "ul" [] (lit "Promoted" ++ nl ++ lit "Engineer") [elem badge_item]].

End Sample.

(* ===================================================================== *)
(** ** More sample documents *)
(* ===================================================================== *)

Module Cases.

(** An item whose company line has two spaces before the separator:
    ["Founder\\nAcme  · Full-time"]. *)
Definition spaced_item : Node :=
  mkNode (Sample.el "li" []
            (lit "Founder" ++ nl ++ lit "Acme " ++ sep ++ lit "Full-time") [])
         [].

End Cases.

(* ===================================================================== *)
(** ** [analyze_founder_profiles] *)
(* ===================================================================== *)

Module Report.

(** The decoded values are Python values: [JArr] a list, [JObj] a dict
    (its members in insertion order, the keys distinct), [JStr] a string,
    [JNum] a number, [JBool] and [JNull] as named. *)

(** [len(v)] *)
Definition py_len (v : json) : outcome nat :=
  match v with
  | JArr items => Return (length items)
  | JObj members => Return (length members)
  | JStr s => Return (length s)
  | _ => Raise TypeError
  end.

(** [for x in v]: the values the loop visits (the elements of a list, the
    keys of a dict, the characters of a string). *)
Definition py_iter (v : json) : outcome (list json) :=
  match v with
  | JArr items => Return items
  | JObj members => Return (map (fun m => JStr (fst m)) members)
  | JStr s => Return (map (fun c => JStr [c]) s)
  | _ => Raise TypeError
  end.

Fixpoint assoc (key : str) (members : list (str * json)) : option json :=
  match members with
  | [] => None
  | (k, v) :: rest => if bool_decide (k = key) then Some v else assoc key rest
  end.

(** [edu.get(key, '')]: only a dict has [get]. *)
Definition py_get (edu : json) (key : str) : outcome json :=
  match edu with
  | JObj members =>
      Return (match assoc key members with
              | Some v => v
              | None => JStr []
              end)
  | _ => Raise AttributeError
  end.

(** [v.replace('\n', ' ').strip()]: only a string has [replace]. *)
Definition py_replace_strip (v : json) : outcome str :=
  match v with
  | JStr s => Return (strip (replace nl space s))
  | _ => Raise AttributeError
  end.

(** [edu.get(key, '').replace('\n', ' ').strip()] *)
Definition normalise_json (edu : json) (key : str) : outcome str :=
  let! v := py_get edu key in
  py_replace_strip v.

(** [Series.apply(f)] and a [for] loop with an accumulator, stopping at
    the first exception. *)
Fixpoint map_outcome {A B} (f : A -> outcome B) (l : list A) : outcome (list B) :=
  match l with
  | [] => Return []
  | x :: rest =>
      let! y := f x in
      let! ys := map_outcome f rest in
      Return (y :: ys)
  end.

Fixpoint fold_outcome {A B} (f : A -> B -> outcome A) (l : list B) (a : A)
  : outcome A :=
  match l with
  | [] => Return a
  | x :: rest =>
      let! a' := f a x in
      fold_outcome f rest a'
  end.

(** The body of the loop that fills [all_degrees] and [all_schools]. *)
Definition collect_edu_json (acc : list str * list str) (edu : json)
  : outcome (list str * list str) :=
  let '(all_degrees, all_schools) := acc in
  let! deg := normalise_json edu (lit "degree") in
  let! sch := normalise_json edu (lit "school") in
  Return (if truthy deg then all_degrees ++ [deg] else all_degrees,
          if truthy sch then all_schools ++ [sch] else all_schools).

(** [for edus in df['parsed_education']: for edu in edus: ...] *)
Definition collect_json (parsed_education : list json)
  : outcome (list str * list str) :=
  fold_outcome
    (fun acc edus =>
       let! items := py_iter edus in
       fold_outcome collect_edu_json items acc)
    parsed_education ([], []).

(** The body of the loop that fills [degrees_for_person]. *)
Definition person_degree (degrees_for_person : list str) (edu : json)
  : outcome (list str) :=
  let! deg := normalise_json edu (lit "degree") in
  Return (if truthy deg then degrees_for_person ++ [deg] else degrees_for_person).

(** A row of the CSV file. *)
Record Row : Type :=
  mkRow { row_name : cell; row_headline : cell;
          row_experiences : cell; row_education : cell }.

(** An element of [founder_summaries]. *)
Record Founder : Type :=
  mkFounder { f_name : cell; f_headline : cell;
              f_num_experiences : nat; f_num_educations : nat;
              f_degrees : list str }.

(** What the function computes before it prints: the row count, the two
    count columns (whose means are printed), the values behind the two
    frequency tables and the per-founder summaries. *)
Record Summary : Type :=
  mkSummary { total_founders : nat;
              num_experiences : list nat; num_educations : list nat;
              all_degrees : list str; all_schools : list str;
              founder_summaries : list Founder }.

(** The body of [for _, row in df.iterrows()]. *)
Definition summarise_row (row : Row * (nat * (nat * json))) : outcome Founder :=
  let '(r, (exp_count, (edu_count, edus))) := row in
  let! items := py_iter edus in
  let! degrees_for_person := fold_outcome person_degree items [] in
  Return (mkFounder (row_name r) (row_headline r) exp_count edu_count
                    degrees_for_person).

(** The function from the parsed columns on. *)
Definition summarise (df : list Row) (parsed_experiences parsed_education : list json)
  : outcome Summary :=
  let! num_experiences := map_outcome py_len parsed_experiences in
  let! num_educations := map_outcome py_len parsed_education in
  let total_founders := length df in
  let! tables := collect_json parsed_education in
  let! founder_summaries :=
    map_outcome summarise_row
      (combine df (combine num_experiences (combine num_educations parsed_education))) in
  Return (mkSummary total_founders num_experiences num_educations
                    (fst tables) (snd tables) founder_summaries).

Definition analyze_founder_profiles (loads : str -> option json) (df : list Row)
  : outcome Summary :=
  let! parsed_experiences :=
    map_outcome (fun r => parse_experiences loads (row_experiences r)) df in
  let! parsed_education :=
    map_outcome (fun r => parse_education loads (row_education r)) df in
  summarise df parsed_experiences parsed_education.

(** *** How the analysis reads a decoded column *)

(** A value with a length: a list, a dict or a string. *)
Definition sized (v : json) : bool :=
  match v with
  | JArr _ | JObj _ | JStr _ => true
  | _ => false
  end.

(** A field of a dict as the loops use it: absent, or a string. *)
Definition field_view (members : list (str * json)) (key : str)
  : option (option str) :=
  match assoc key members with
  | None => Some None
  | Some (JStr s) => Some (Some s)
  | Some _ => None
  end.

Definition with_field (key : string) (o : option str) (d : entry) : entry :=
  match o with
  | Some s => <[key := s]> d
  | None => d
  end.

(** An education entry the loops can read: a dict whose [degree] and
    [school], when present, are strings; seen as an entry of the two. *)
Definition as_entry (edu : json) : option entry :=
  match edu with
  | JObj members =>
      match field_view members (lit "degree"), field_view members (lit "school") with
      | Some deg, Some sch => Some (with_field "school" sch (with_field "degree" deg ∅))
      | _, _ => None
      end
  | _ => None
  end.

Fixpoint map_option {A B} (f : A -> option B) (l : list A) : option (list B) :=
  match l with
  | [] => Some []
  | x :: rest =>
      match f x, map_option f rest with
      | Some y, Some ys => Some (y :: ys)
      | _, _ => None
      end
  end.

(** A decoded column value whose loop visits readable entries only. *)
Definition as_entries (v : json) : option (list entry) :=
  match py_iter v with
  | Return items => map_option as_entry items
  | Raise _ => None
  end.

End Report.

Import Report.

(* ===================================================================== *)
(** ** Notions used for the report *)
(* ===================================================================== *)

(** [len(v)] where it is defined. *)
Definition json_size (v : json) : nat :=
  match py_len v with
  | Return n => n
  | Raise _ => 0
  end.

(** The degrees of one founder, from the entries of the row. *)
Definition degrees_of (es : list entry) : list str :=
  List.filter truthy
    (map (fun edu => strip (breaks_to_spaces (get edu "degree"))) es).

(** The rows' education cells decode to values that read as the entries
    [ess], row by row. *)
Definition reads_as (loads : str -> option json)
           (df : list Row) (ess : list (list entry)) : Prop :=
  Forall2 (fun r es =>
             exists v, parse_education loads (row_education r) = Return v
                       /\ as_entries v = Some es) df ess.

(** The summary of a row whose education column reads as [es]. *)
Definition founder_of (row : Row * (nat * list entry)) : Founder :=
  let '(r, (exp_count, es)) := row in
  mkFounder (row_name r) (row_headline r) exp_count (length es) (degrees_of es).

(* ===================================================================== *)
(** ** Sample tables *)
(* ===================================================================== *)

Module Tables.

(** A decoder that also knows the text [5]. *)
Definition loads_five (s : str) : option json :=
  if bool_decide (s = lit "5") then Some (JNum (lit "5"))
  else Sample.loads_known s.

(** Two rows: one with an education entry, one without any value. *)
Definition ada_row : Row :=
  mkRow (Text (lit "Ada")) (Text (lit "Founder")) (Text (lit "[]"))
        (Text Sample.mit_text).

Definition empty_row : Row := mkRow Missing Missing Missing Missing.

Definition two_rows : list Row := [ada_row; empty_row].

(** The entry the education cell of the first row reads as. *)
Definition mit_entry : entry := <["school" := lit "MIT"]> ∅.

End Tables.

(* ===================================================================== *)
(** ** [linkedin_login] and [main] *)
(* ===================================================================== *)

Module Batch.

(** What a run leaves behind: the keys sent to form fields (by the [id]
    of the field), the files written by [save_page_source], the seconds
    asked of [time.sleep], whether [driver.quit()] was called, and the
    rows written to [founder_profile_data.csv] if it was written.

    The browser is taken to start, [LINKEDIN_EMAIL] and
    [LINKEDIN_PASSWORD] to be set, and the login page to stay as loaded
    while the form is filled. *)
Record World : Type :=
  mkWorld { typed : list (string * str);
            saved : list string;
            slept : nat;
            quit : bool;
            csv : option (list (gmap string value)) }.

Definition start : World := mkWorld [] [] 0 false None.

(** [save_page_source(driver, filename)] *)
Definition save_page_source (filename : string) (w : World) : World :=
  mkWorld (typed w) (saved w ++ [filename]) (slept w) (quit w) (csv w).

(** [field.send_keys(keys)] *)
Definition send_keys (field : string) (keys : str) (w : World) : World :=
  mkWorld (typed w ++ [(field, keys)]) (saved w) (slept w) (quit w) (csv w).

(** [time.sleep(seconds)] *)
Definition sleep (seconds : nat) (w : World) : World :=
  mkWorld (typed w) (saved w) (slept w + seconds) (quit w) (csv w).

(** [driver.quit()] *)
Definition driver_quit (w : World) : World :=
  mkWorld (typed w) (saved w) (slept w) true (csv w).

(** [out_df.to_csv("founder_profile_data.csv", index=False)] *)
Definition to_csv (rows : list (gmap string value)) (w : World) : World :=
  mkWorld (typed w) (saved w) (slept w) (quit w) (Some rows).

(** [Keys.RETURN] *)
Definition RETURN : str := [57351%N].

(** [linkedin_login(driver, email, password)] on the login page the
    browser shows and the address it is at after the form was sent.
    The boolean is [false] when [NoSuchElementException] is raised. *)
Definition linkedin_login (login_page : Element) (landing_url : str)
           (email password : str) (w : World) : World * bool :=
  let w := sleep 2 w in
  match driver_find_by_id login_page "username" with
  | None => (save_page_source "login_page_error.html" w, false)
  | Some _ =>
      let w := send_keys "username" email w in
      match driver_find_by_id login_page "password" with
      | None => (save_page_source "login_page_error.html" w, false)
      | Some _ =>
          let w := send_keys "password" password w in
          let w := send_keys "password" RETURN w in
          let w := sleep 30 w in
          if contains (lit "feed") landing_url
             || contains (lit "checkpoint") landing_url
          then (w, true)
          else (save_page_source "login_result_page.html" w, true)
      end
  end.

(** What [scrape_founder_profile] does besides returning the record:
    after a navigation without exception it sleeps 8 seconds and saves
    the page. *)
Definition scrape_effects (nav : Navigation) (w : World) : World :=
  match nav with
  | NavError => w
  | Loaded _ _ => save_page_source "profile_page.html" (sleep 8 w)
  end.

(** [5 + (5 * (len(results) % 3))] *)
Definition delay (results : list (gmap string value)) : nat :=
  5 + 5 * (length results mod 3).

(** The loop over [df['founder_link']]; [navigate i link] is what the
    browser does on the [i]-th visit. *)
Fixpoint visit_all (navigate : nat -> str -> Navigation) (links : list str)
         (i : nat) (w : World) (results : list (gmap string value))
  : World * list (gmap string value) :=
  match links with
  | [] => (w, results)
  | link :: rest =>
      let nav := navigate i link in
      let w := scrape_effects nav w in
      let profile_data := scrape_founder_profile nav link in
      let results := results ++ [profile_data] in
      let w := sleep (delay results) w in
      visit_all navigate rest (S i) w results
  end.

(** A row of [data_for_csv]; [None] stands for [KeyError]. *)
Definition to_row (dumps : value -> str) (item : gmap string value)
  : option (gmap string value) :=
  match item !! "profile_url", item !! "name", item !! "headline",
        item !! "experiences", item !! "education" with
  | Some u, Some n, Some h, Some e, Some d =>
      Some (<["education" := VStr (dumps d)]>
              (<["experiences" := VStr (dumps e)]>
                 (<["headline" := h]>
                    (<["name" := n]>
                       (<["profile_url" := u]> ∅)))))
  | _, _, _, _, _ => None
  end.

(** [your_file.csv] as [pd.read_csv] finds it: unreadable, or a table
    with or without the column [founder_link]. *)
Inductive Table : Type :=
  | Unreadable
  | Columns (founder_link : option (list str)).

Definition fallback_link : str := lit "https://www.linkedin.com/in/akkshay/".

Definition main (dumps : value -> str) (table : Table)
           (login_page : Element) (landing_url : str) (email password : str)
           (navigate : nat -> str -> Navigation) : World :=
  let df :=
    match table with
    | Unreadable => Some [fallback_link]
    | Columns founder_link => founder_link
    end in
  let '(w, logged_in) := linkedin_login login_page landing_url email password start in
  if logged_in then
    match df with
    | None => w
    | Some links =>
        let '(w, results) := visit_all navigate links 0 w [] in
        let w := driver_quit w in
        match Report.map_option (to_row dumps) results with
        | Some data_for_csv => to_csv data_for_csv w
        | None => w
        end
    end
  else driver_quit w.

(** The seconds [main] waits after [n] profiles, in all. *)
Definition waited (n : nat) : nat :=
  10 * n + (if n mod 3 =? 2 then 5 else 0).

(** The navigations that load a page among the visits from [i] on. *)
Fixpoint loaded_visits (navigate : nat -> str -> Navigation) (links : list str)
         (i : nat) : nat :=
  match links with
  | [] => 0
  | link :: rest =>
      match navigate i link with
      | NavError => 0
      | Loaded _ _ => 1
      end + loaded_visits navigate rest (S i)
  end.

(** The records of the visits from [i] on, in the order of the links. *)
Fixpoint records (navigate : nat -> str -> Navigation) (links : list str)
         (i : nat) : list (gmap string value) :=
  match links with
  | [] => []
  | link :: rest =>
      scrape_founder_profile (navigate i link) link
      :: records navigate rest (S i)
  end.

(** The links of the table; the fallback link when the file cannot be
    read. *)
Definition links_of (table : Table) : option (list str) :=
  match table with
  | Unreadable => Some [fallback_link]
  | Columns founder_link => founder_link
  end.

(** The login form has both fields. *)
Definition form_complete (login_page : Element) : Prop :=
  is_Some (driver_find_by_id login_page "username")
  /\ is_Some (driver_find_by_id login_page "password").

End Batch.

(* ===================================================================== *)
(** ** A sample run *)
(* ===================================================================== *)

Module Runs.

(** A login page with both fields. *)
Definition login_form : Element :=
  Sample.el "html" [] []
    [ Sample.el "form" [] []
        [ mkElement "input" (Some "username"%string) [] [] [];
          mkElement "input" (Some "password"%string) [] [] [] ] ].

(** A table of two links; every visit loads the sample page. *)
Definition two_links : Batch.Table :=
  Batch.Columns (Some [Sample.page_url; Sample.page_url]).

Definition visit (i : nat) (link : str) : Navigation :=
  Loaded Sample.page_url Sample.page.

(** A stand-in for [json.dumps]. *)
Definition dumps (v : value) : str :=
  match v with
  | VList [] => lit "[]"
  | _ => lit "[...]"
  end.

(** The address after a login that was turned down. *)
Definition login_again : str := lit "https://www.linkedin.com/uas/login-submit".

Definition run : Batch.World :=
  Batch.main dumps two_links login_form login_again
             (lit "ada@example.org") (lit "secret") visit.

End Runs.

(* ===================================================================== *)
(** ** Facts about the string operations *)
(* ===================================================================== *)

Section StringFacts.

Implicit Types s p a b : str.

Lemma lstrip_split s :
  exists l, s = l ++ lstrip s /\ forallb isspace l = true.
Proof.
  induction s as [|c s IH]; simpl.
  - exists []. done.
  - destruct (isspace c) eqn:E.
    + destruct IH as (l & Hl & Hsp). exists (c :: l). simpl.
      rewrite E, Hsp. split; [congruence|done].
    + exists []. done.
Qed.

Lemma lstrip_head s c : head (lstrip s) = Some c -> isspace c = false.
Proof.
  induction s as [|x s IH]; simpl; [done|].
  destruct (isspace x) eqn:E; [done|]. simpl. congruence.
Qed.

Lemma rstrip_split s :
  exists r, s = rstrip s ++ r /\ forallb isspace r = true.
Proof.
  unfold rstrip. destruct (lstrip_split (rev s)) as (l & Hl & Hsp).
  exists (rev l). split.
  - rewrite <- rev_app_distr, <- Hl. by rewrite rev_involutive.
  - rewrite forallb_forall in *. intros x Hx. apply Hsp. by apply in_rev.
Qed.

Lemma rstrip_last s c : last (rstrip s) = Some c -> isspace c = false.
Proof.
  unfold rstrip. intros H. apply (lstrip_head (rev s)).
  destruct (lstrip (rev s)) as [|x u]; [done|]. simpl in *.
  rewrite last_snoc in H. done.
Qed.

(** [strip] removes white space at the two ends and nothing else. *)
Lemma strip_split s :
  exists l r, s = l ++ strip s ++ r
              /\ forallb isspace l = true /\ forallb isspace r = true.
Proof.
  destruct (lstrip_split s) as (l & Hl & Hls).
  destruct (rstrip_split (lstrip s)) as (r & Hr & Hrs).
  exists l, r. unfold strip. rewrite <- Hr. done.
Qed.

Lemma strip_trimmed s : trimmed (strip s).
Proof.
  split; intros c Hc.
  - destruct (rstrip_split (lstrip s)) as (r & Hr & _).
    apply (lstrip_head s). unfold strip in Hc. rewrite Hr.
    destruct (rstrip (lstrip s)); [done|]. simpl in *. done.
  - by apply (rstrip_last (lstrip s)).
Qed.

Lemma lstrip_id s :
  (forall c, head s = Some c -> isspace c = false) -> lstrip s = s.
Proof.
  destruct s as [|x s]; [done|]. intros H. simpl. by rewrite (H x eq_refl).
Qed.

Lemma strip_id s : trimmed s -> strip s = s.
Proof.
  intros [Hh Hl]. unfold strip. rewrite (lstrip_id s Hh). unfold rstrip.
  rewrite lstrip_id; [apply rev_involutive|].
  intros c Hc. apply Hl. rewrite <- (rev_involutive s).
  destruct (rev s) as [|x u]; [done|]. simpl in *. rewrite last_snoc. done.
Qed.

Lemma truthy_true s : truthy s = true <-> s <> [].
Proof. destruct s; simpl; split; done. Qed.

Lemma truthy_false s : truthy s = false <-> s = [].
Proof. destruct s; simpl; split; done. Qed.

Lemma startswith_spec p s : startswith p s = true <-> exists b, s = p ++ b.
Proof.
  revert s. induction p as [|x p IH]; intros s; simpl.
  - split; [intros _; by exists s | done].
  - destruct s as [|c s].
    + split; [done | intros [b Hb]; done].
    + rewrite andb_true_iff, IH, N.eqb_eq. split.
      * intros [-> [b ->]]. by exists b.
      * intros [b Hb]. injection Hb as -> ->. split; [done | by exists b].
Qed.

Lemma startswith_drop p s : startswith p s = true -> s = p ++ drop (length p) s.
Proof. intros [b ->]%startswith_spec. by rewrite drop_app_length. Qed.

(** [cut] finds an occurrence ... *)
Lemma cut_sound p s a b : cut p s = Some (a, b) -> s = a ++ p ++ b.
Proof.
  revert a. induction s as [|c s IH]; intros a; simpl.
  - destruct (startswith p []) eqn:E; [|done].
    intros [= <- <-]. simpl. by apply startswith_drop.
  - destruct (startswith p (c :: s)) eqn:E.
    + intros [= <- <-]. simpl. by apply startswith_drop.
    + destruct (cut p s) as [[a' b']|] eqn:Ec; [|done].
      intros [= <- <-]. simpl. f_equal. by apply IH.
Qed.

(** ... the leftmost one ... *)
Lemma cut_first p s a b :
  cut p s = Some (a, b) ->
  forall a' b', s = a' ++ p ++ b' -> length a <= length a'.
Proof.
  revert a. induction s as [|c s IH]; intros a; simpl.
  - destruct (startswith p []) eqn:E; [|done]. intros [= <- <-] *. simpl. lia.
  - destruct (startswith p (c :: s)) eqn:E.
    + intros [= <- <-] *. simpl. lia.
    + destruct (cut p s) as [[a1 b1]|] eqn:Ec; [|done].
      intros [= <- <-] a' b' Hs. destruct a' as [|c' a'].
      * simpl in Hs.
        assert (startswith p (c :: s) = true) by (apply startswith_spec; eauto).
        congruence.
      * simpl in *. injection Hs as -> ->.
        specialize (IH a1 eq_refl a' b' eq_refl). lia.
Qed.

(** ... and fails only when there is none. *)
Lemma cut_complete p s : cut p s = None -> ~ occurs_in p s.
Proof.
  unfold occurs_in. induction s as [|c s IH]; simpl.
  - destruct (startswith p []) eqn:E; [done|]. intros _ (a & b & Hs).
    destruct a; [|done]. simpl in Hs.
    assert (startswith p [] = true) by (apply startswith_spec; eauto). congruence.
  - destruct (startswith p (c :: s)) eqn:E; [done|].
    destruct (cut p s) as [[a1 b1]|] eqn:Ec; [done|].
    intros _ (a & b & Hs). destruct a as [|c' a].
    + simpl in Hs.
      assert (startswith p (c :: s) = true) by (apply startswith_spec; eauto).
      congruence.
    + simpl in Hs. injection Hs as _ Hs. apply (IH eq_refl). by exists a, b.
Qed.

Lemma contains_spec p s : contains p s = true <-> occurs_in p s.
Proof.
  unfold contains. destruct (cut p s) as [[a b]|] eqn:E.
  - split; [|done]. intros _. exists a, b. by apply cut_sound.
  - split; [done|]. intros H. by apply cut_complete in H.
Qed.

Lemma contains_false p s : contains p s = false <-> ~ occurs_in p s.
Proof.
  rewrite <- contains_spec. destruct (contains p s); split; done.
Qed.

Lemma cut_shorter p s a b :
  p <> [] -> cut p s = Some (a, b) -> length b < length s.
Proof.
  intros Hp H. apply cut_sound in H. subst s. rewrite !length_app.
  destruct p; [done|]. simpl. lia.
Qed.

Lemma cut_nil p : p <> [] -> cut p [] = None.
Proof. destruct p; [done|]. done. Qed.

Lemma split_rounds_nil p n : p <> [] -> split_rounds n p [] = [[]].
Proof. intros Hp. destruct n; [done|]. cbn [split_rounds]. by rewrite cut_nil. Qed.

(** Rounds beyond the length of the text change nothing. *)
Lemma split_rounds_enough p :
  p <> [] ->
  forall n m s, length s <= n -> length s <= m ->
                split_rounds n p s = split_rounds m p s.
Proof.
  intros Hp. induction n as [|n IH]; intros m s Hn Hm.
  - destruct s; [|simpl in Hn; lia]. by rewrite !split_rounds_nil.
  - destruct m as [|m].
    + destruct s; [|simpl in Hm; lia]. by rewrite !split_rounds_nil.
    + cbn [split_rounds]. destruct (cut p s) as [[a b]|] eqn:E; [|done].
      f_equal. apply cut_shorter in E; [|done]. apply IH; lia.
Qed.

(** The equation of [split]: cut at the first occurrence, split the rest. *)
Lemma split_unfold p s :
  p <> [] ->
  split p s = match cut p s with
              | None => [s]
              | Some (a, b) => a :: split p b
              end.
Proof.
  intros Hp. unfold split. destruct s as [|c s].
  - rewrite cut_nil by done. done.
  - cbn [length split_rounds].
    destruct (cut p (c :: s)) as [[a b]|] eqn:E; [|done].
    f_equal. apply cut_shorter in E; [|done]. cbn [length] in E.
    apply split_rounds_enough; [done | lia | lia].
Qed.

Lemma split_nonempty p s : p <> [] -> split p s <> [].
Proof.
  intros Hp. rewrite split_unfold by done. by destruct (cut p s) as [[a b]|].
Qed.

End StringFacts.

(* ===================================================================== *)
(** ** The field extractor *)
(* ===================================================================== *)

Section FieldFacts.

Implicit Types d : entry.
Implicit Types item : Node.

Lemma sep_nonempty : sep <> [].
Proof. done. Qed.

Lemma nl_nonempty : nl <> [].
Proof. done. Qed.

(** The selector loop stops at the first selector with a match and reads
    the first match. *)
Lemma first_match_found item pre sel post el els :
  Forall (fun s => find_elements item s = []) pre ->
  find_elements item sel = el :: els ->
  first_match item (pre ++ sel :: post) = Some (strip (node_text el)).
Proof.
  intros Hpre Hsel. induction Hpre as [|s pre Hs _ IH]; simpl.
  - by rewrite Hsel.
  - by rewrite Hs.
Qed.

Lemma first_match_none item sels :
  Forall (fun s => find_elements item s = []) sels ->
  first_match item sels = None.
Proof.
  induction 1 as [|s sels Hs _ IH]; simpl; [done|]. by rewrite Hs.
Qed.

Lemma first_match_trimmed item sels t :
  first_match item sels = Some t -> trimmed t.
Proof.
  induction sels as [|s sels IH]; simpl; [done|].
  destruct (find_elements item s) as [|el els]; [done|].
  intros [= <-]. apply strip_trimmed.
Qed.

(** A trimmed text does not begin with the separator. *)
Lemma trimmed_cut_sep t a b :
  trimmed t -> cut sep t = Some (a, b) -> a <> [].
Proof.
  intros [Hh _] Hc ->. apply cut_sound in Hc. subst t.
  by specialize (Hh 32%N eq_refl).
Qed.

(** The compound parse, by cases on the first occurrence of the separator. *)
Lemma set_company_cut t a b d :
  cut sep t = Some (a, b) ->
  set_company t d =
    <["employment_type" := match cut sep b with
                           | Some (e, _) => e
                           | None => b
                           end]> (<["company" := a]> d).
Proof.
  intros Hc. unfold set_company, contains. rewrite Hc.
  rewrite (split_unfold sep t sep_nonempty), Hc.
  rewrite (split_unfold sep b sep_nonempty).
  by destruct (cut sep b) as [[e r]|].
Qed.

Lemma set_company_plain t d :
  cut sep t = None ->
  set_company t d = <["employment_type" := []]> (<["company" := t]> d).
Proof. intros Hc. unfold set_company, contains. by rewrite Hc. Qed.

Lemma set_company_eq t d :
  set_company t d =
    <["employment_type" := employment_type_of t]> (<["company" := company_of t]> d).
Proof.
  unfold company_of, employment_type_of.
  destruct (cut sep t) as [[a b]|] eqn:Hc.
  - by apply set_company_cut.
  - by apply set_company_plain.
Qed.

Lemma set_company_twice t t' d :
  set_company t (set_company t' d) = set_company t d.
Proof.
  rewrite !set_company_eq. apply map_eq. intros k.
  destruct (decide (k = "employment_type")) as [->|He];
    [by rewrite !lookup_insert_eq|].
  rewrite !(lookup_insert_ne _ "employment_type") by done.
  destruct (decide (k = "company")) as [->|Hk];
    [by rewrite !lookup_insert_eq|].
  by rewrite !lookup_insert_ne by congruence.
Qed.

Lemma missing_company_set t d :
  missing "company" (set_company t d) = negb (truthy (company_of t)).
Proof.
  rewrite set_company_eq. unfold missing.
  rewrite lookup_insert_ne by done. by rewrite lookup_insert_eq.
Qed.

Lemma company_of_trimmed t : trimmed t -> t <> [] -> company_of t <> [].
Proof.
  intros Ht Hne. unfold company_of.
  destruct (cut sep t) as [[a b]|] eqn:Hc; [|done].
  by apply (trimmed_cut_sep t a b).
Qed.

Lemma extract_field_other spec item d k :
  k <> key spec -> extract_field spec item d !! k = d !! k.
Proof.
  intros Hk. unfold extract_field.
  destruct (first_match item (selectors spec)) as [t|];
    destruct (missing _ _); try destruct (text_lines item !! index spec);
    rewrite ?lookup_insert_ne by done; done.
Qed.

(** When the selector text leaves a company, the company block is the
    compound parse of that text. *)
Lemma extract_company_selector item d t :
  first_match item company_selectors = Some t -> t <> [] ->
  extract_company item d = set_company t d.
Proof.
  intros Hm Hne. unfold extract_company. rewrite Hm, missing_company_set.
  pose proof (company_of_trimmed t (first_match_trimmed _ _ _ Hm) Hne) as Hc.
  apply truthy_true in Hc. by rewrite Hc.
Qed.

Lemma extract_company_parses item d t :
  missing "company" d = true ->
  company_text_of item t -> exists d', extract_company item d = set_company t d'.
Proof.
  intros Hd [[Hm Hne] | [[Hm Hl] | (Hm & Hl & ->)]].
  - exists d. by apply extract_company_selector.
  - destruct (text_lines item !! 1) as [line|] eqn:El; [|done].
    injection Hl as <-. unfold extract_company. rewrite El.
    destruct Hm as [-> | ->].
    + rewrite Hd. by exists d.
    + rewrite missing_company_set. simpl. eexists. reflexivity.
  - unfold extract_company. rewrite Hm, Hl, missing_company_set. simpl.
    by exists d.
Qed.

End FieldFacts.

(* ===================================================================== *)
(** ** Compound company text *)
(* ===================================================================== *)

Lemma extract_experience_company item :
  extract_experience item !! "company"
  = extract_company item (extract_field title_spec item ∅) !! "company"
  /\ extract_experience item !! "employment_type"
     = extract_company item (extract_field title_spec item ∅) !! "employment_type".
Proof.
  unfold extract_experience. by rewrite !(extract_field_other date_spec).
Qed.

Lemma title_leaves_company_missing item :
  missing "company" (extract_field title_spec item ∅) = true.
Proof.
  unfold missing. by rewrite (extract_field_other title_spec).
Qed.

(** C1, as amended. For every experience item and the company text [t]
    extracted from it: when [t] contains the separator, [company] is the
    text before its first occurrence and [employment_type] is the text
    between the first occurrence and the next one (all the text after the
    first occurrence when there is no other); when [t] does not contain
    the separator, [company] is [t] and [employment_type] is the empty
    string, present in the entry. *)
Theorem company_compound_split (item : Node) (t : str) :
  company_text_of item t ->
  (forall a b, cut sep t = Some (a, b) ->
     extract_experience item !! "company" = Some a
     /\ extract_experience item !! "employment_type"
        = Some (match cut sep b with
                | Some (e, _) => e
                | None => b
                end))
  /\ (~ occurs_in sep t ->
      extract_experience item !! "company" = Some t
      /\ extract_experience item !! "employment_type" = Some ([] : str)).
Proof.
  intros Ht.
  destruct (extract_experience_company item) as [Hco Hem].
  destruct (extract_company_parses item _ t (title_leaves_company_missing item) Ht)
    as [d' Hd'].
  rewrite Hco, Hem, Hd'. clear Hco Hem Hd'.
  split.
  - intros a b Hc. rewrite (set_company_cut t a b d' Hc).
    rewrite lookup_insert_ne by done. by rewrite !lookup_insert_eq.
  - intros Hno. apply contains_false in Hno. unfold contains in Hno.
    destruct (cut sep t) as [[a b]|] eqn:Hc; [done|].
    rewrite (set_company_plain t d' Hc).
    rewrite lookup_insert_ne by done. by rewrite !lookup_insert_eq.
Qed.

Lemma remote_item_company_text : company_text_of Sample.remote_item Sample.acme_remote.
Proof. right. left. split; [left|]; reflexivity. Qed.

Lemma company_compound_split_witness :
  extract_experience Sample.remote_item !! "company" = Some (lit "Acme Corp")
  /\ extract_experience Sample.remote_item !! "employment_type" = Some (lit "Full-time").
Proof.
  exact (proj1 (company_compound_split Sample.remote_item Sample.acme_remote
                  remote_item_company_text)
               (lit "Acme Corp") (lit "Full-time" ++ sep ++ lit "Remote") eq_refl).
Defined.

(** C1 as the specification words it: [employment_type] would be all the
    text after the first separator. With two separators in the company
    text the code stores only the middle part. *)
Lemma employment_type_is_not_the_rest :
  ~ (forall item t a b,
       company_text_of item t -> cut sep t = Some (a, b) ->
       extract_experience item !! "company" = Some a
       /\ extract_experience item !! "employment_type" = Some b).
Proof.
  intros H.
  destruct (H Sample.remote_item Sample.acme_remote
              (lit "Acme Corp") (lit "Full-time" ++ sep ++ lit "Remote")
              remote_item_company_text eq_refl) as [_ He].
  vm_compute in He. discriminate He.
Qed.

(* ===================================================================== *)
(** ** Scenario A: the positional fallback *)
(* ===================================================================== *)

(** C2. An experience item on which no selector of the title, company and
    date lists matches and whose text is
    ["VP Engineering\\nAcme Corp · Full-time\\nJan 2020 - Present"] yields
    exactly title "VP Engineering", company "Acme Corp", employment type
    "Full-time" and date range "Jan 2020 - Present": line 0, line 1 with
    the compound split, line 2. *)
Theorem scenario_a_fallback (item : Node) :
  (forall s, s ∈ title_selectors ++ company_selectors ++ date_selectors ->
             find_elements item s = []) ->
  node_text item = Sample.scenario_a_text ->
  extract_experience item
  = <["title" := lit "VP Engineering"]>
      (<["company" := lit "Acme Corp"]>
         (<["employment_type" := lit "Full-time"]>
            (<["date_range" := lit "Jan 2020 - Present"]> ∅))).
Proof.
  intros Hno Htext.
  apply Forall_forall in Hno.
  apply Forall_app in Hno as [Htitle Hno].
  apply Forall_app in Hno as [Hcompany Hdate].
  unfold extract_experience, extract_field, extract_company, text_lines.
  cbn [selectors key index title_spec date_spec].
  rewrite (first_match_none item _ Htitle), (first_match_none item _ Hcompany),
    (first_match_none item _ Hdate), Htext.
  vm_compute. reflexivity.
Qed.

Lemma scenario_a_fallback_witness :
  extract_experience Sample.scenario_a_item !! "employment_type" = Some (lit "Full-time").
Proof.
  rewrite (scenario_a_fallback Sample.scenario_a_item).
  - reflexivity.
  - intros s Hs. vm_compute in Hs.
    repeat (apply elem_of_cons in Hs as [-> | Hs]; [vm_compute; reflexivity|]).
    by apply elem_of_nil in Hs.
  - reflexivity.
Defined.

(* ===================================================================== *)
(** ** Which entries are kept *)
(* ===================================================================== *)

Lemma any_values_spec (d : entry) : any_values d = true <-> has_nonempty_field d.
Proof.
  unfold any_values, has_nonempty_field. rewrite existsb_exists. split.
  - intros (v & Hin & Hv). apply list_elem_of_In, list_elem_of_fmap in Hin.
    destruct Hin as ([k v'] & -> & Hkv). apply elem_of_map_to_list in Hkv.
    exists k, v'. split; [done | by apply truthy_true].
  - intros (k & v & Hkv & Hv). exists v. split; [|by apply truthy_true].
    apply list_elem_of_In, list_elem_of_fmap. exists (k, v).
    split; [done | by apply elem_of_map_to_list].
Qed.

(** The loop appends, in order, the entries that pass the test. *)
Lemma process_items_filter (extract : Node -> entry) items out :
  process_items extract items out
  = out ++ List.filter any_values (map extract items).
Proof.
  revert out. induction items as [|item items IH]; intros out; simpl.
  - by rewrite app_nil_r.
  - rewrite IH. destruct (any_values (extract item)); [|done].
    by rewrite <- app_assoc.
Qed.

Lemma scrape_section_found doc cards label anchor extract section :
  locate_section doc cards label anchor = Some section ->
  scrape_section doc cards label anchor extract
  = List.filter any_values (map extract (enumerate_items section)).
Proof.
  intros H. unfold scrape_section. rewrite H. apply process_items_filter.
Qed.

Lemma kept_iff (extract : Node -> entry) items item :
  item ∈ items ->
  extract item ∈ List.filter any_values (map extract items)
  <-> has_nonempty_field (extract item).
Proof.
  intros Hin. rewrite list_elem_of_In, filter_In, any_values_spec. split.
  - by intros [_ H].
  - intros H. split; [|done]. apply in_map. by apply list_elem_of_In.
Qed.

(** The record of a page that was loaded and not redirected. *)
Lemma scrape_loaded url doc profile_url :
  redirected url = false ->
  let data := scrape_founder_profile (Loaded url doc) profile_url in
  let cards := driver_find_elements doc "section.artdeco-card" in
  data !! "experiences"
  = Some (VList (scrape_section doc cards (lit "Experience") "experience"
                                extract_experience))
  /\ data !! "education"
     = Some (VList (scrape_section doc cards (lit "Education") "education"
                                   extract_education)).
Proof.
  intros Hr. cbn zeta. unfold scrape_founder_profile. rewrite Hr. split.
  - rewrite lookup_insert_ne by done. by rewrite lookup_insert_eq.
  - by rewrite lookup_insert_eq.
Qed.

(** C3. On a loaded page, for every item enumerated in the located
    section, the item's entry is in the record's sequence exactly when
    one of its fields is a non-empty string; the sequence is the kept
    entries in the order of the items. For experiences and for education. *)
Theorem entry_kept_iff_nonempty_field
        (url : str) (doc : Element) (profile_url : str) (section item : Node) :
  redirected url = false ->
  item ∈ enumerate_items section ->
  let data := scrape_founder_profile (Loaded url doc) profile_url in
  let cards := driver_find_elements doc "section.artdeco-card" in
  (locate_section doc cards (lit "Experience") "experience" = Some section ->
   exists out,
     data !! "experiences" = Some (VList out)
     /\ out = List.filter any_values (map extract_experience (enumerate_items section))
     /\ (extract_experience item ∈ out <-> has_nonempty_field (extract_experience item)))
  /\ (locate_section doc cards (lit "Education") "education" = Some section ->
      exists out,
        data !! "education" = Some (VList out)
        /\ out = List.filter any_values (map extract_education (enumerate_items section))
        /\ (extract_education item ∈ out <-> has_nonempty_field (extract_education item))).
Proof.
  intros Hr Hin. cbn zeta.
  destruct (scrape_loaded url doc profile_url Hr) as [Hexp Hedu]. cbn zeta in *.
  split; intros Hloc; eexists; (split; [eassumption|]);
    rewrite (scrape_section_found _ _ _ _ _ _ Hloc);
    (split; [reflexivity | by apply kept_iff]).
Qed.

Lemma sample_job_enumerated : Sample.job ∈ enumerate_items Sample.card.
Proof.
  assert (enumerate_items Sample.card = [Sample.job; Sample.blank]) as ->
      by (vm_compute; reflexivity).
  apply elem_of_cons. by left.
Qed.

Lemma entry_kept_iff_nonempty_field_witness :
  exists out,
    scrape_founder_profile (Loaded Sample.page_url Sample.page) Sample.page_url
      !! "experiences" = Some (VList out)
    /\ out = List.filter any_values
               (map extract_experience (enumerate_items Sample.card))
    /\ (extract_experience Sample.job ∈ out
        <-> has_nonempty_field (extract_experience Sample.job)).
Proof.
  apply (entry_kept_iff_nonempty_field
           Sample.page_url Sample.page Sample.page_url Sample.card Sample.job).
  - vm_compute. reflexivity.
  - exact sample_job_enumerated.
  - vm_compute. reflexivity.
Defined.

(* ===================================================================== *)
(** ** Selector matches before text lines *)
(* ===================================================================== *)

Lemma extract_field_selector spec item d t :
  first_match item (selectors spec) = Some t -> t <> [] ->
  extract_field spec item d = <[key spec := t]> d.
Proof.
  intros Hm Hne. unfold extract_field, missing. rewrite Hm, lookup_insert_eq.
  apply truthy_true in Hne. by rewrite Hne.
Qed.

(** C4, as amended. For every item and field: when, in the field's
    selector list, the first selector with a match has a first match whose
    trimmed text is not empty, the field is set to that text as it is (for
    the company block: to its compound parse) and nothing else of the
    entry changes, whatever the lines of the item text are. *)
Theorem selector_match_wins
        (item : Node) (d : entry) (sels pre post : list string) (sel : string)
        (el : Node) (els : list Node) :
  sels = pre ++ sel :: post ->
  Forall (fun s => find_elements item s = []) pre ->
  find_elements item sel = el :: els ->
  strip (node_text el) <> [] ->
  (forall spec, selectors spec = sels ->
     extract_field spec item d = <[key spec := strip (node_text el)]> d)
  /\ (sels = company_selectors ->
      extract_company item d = set_company (strip (node_text el)) d).
Proof.
  intros -> Hpre Hsel Hne.
  pose proof (first_match_found item pre sel post el els Hpre Hsel) as Hm.
  split.
  - intros spec Hs. apply extract_field_selector; [by rewrite Hs | done].
  - intros Hs. apply extract_company_selector; [by rewrite <- Hs | done].
Qed.

Lemma selector_match_wins_witness :
  extract_field title_spec Sample.badge_item ∅ = <["title" := lit "Engineer"]> ∅.
Proof.
  apply (proj1 (selector_match_wins Sample.badge_item ∅ title_selectors
                  ["div.mr1.t-bold"; "div.align-items-center.mr1.t-bold"]%string
                  ["span.t-16.t-bold"; ".t-bold"; "div.align-items-center"]%string
                  "span.t-bold"
                  (mkNode (Sample.el "span" ["t-bold"] (lit "Engineer") [])
                          [elem Sample.badge_item])
                  []
                  eq_refl
                  ltac:(repeat constructor)
                  eq_refl
                  ltac:(discriminate))
               title_spec eq_refl).
Defined.

(** C4 as the specification words it: any selector match would fix the
    field. A first match with an empty text leaves the field to the text
    line. *)
Lemma empty_selector_match_falls_back :
  ~ (forall (spec : FieldSpec) (item : Node) (d : entry) pre sel post el els,
       selectors spec = pre ++ sel :: post ->
       Forall (fun s => find_elements item s = []) pre ->
       find_elements item sel = el :: els ->
       extract_field spec item d !! key spec = Some (strip (node_text el))).
Proof.
  intros H.
  specialize (H title_spec Sample.hollow_item ∅
                ["div.mr1.t-bold"; "div.align-items-center.mr1.t-bold"]%string
                "span.t-bold"
                ["span.t-16.t-bold"; ".t-bold"; "div.align-items-center"]%string
                (mkNode (Sample.el "span" ["t-bold"] [] [])
                        [elem Sample.hollow_item])
                []
                eq_refl ltac:(repeat constructor) eq_refl).
  vm_compute in H. discriminate H.
Qed.

(* ===================================================================== *)
(** ** The section locator *)
(* ===================================================================== *)

Section LocatorFacts.

Lemma filter_head_first {A} (f : A -> bool) (l before after : list A) (a : A) :
  l = before ++ a :: after -> f a = true ->
  Forall (fun x => f x = false) before ->
  head (List.filter f l) = Some a.
Proof.
  intros -> Ha Hb. induction Hb as [|x before Hx _ IH]; simpl.
  - by rewrite Ha.
  - by rewrite Hx.
Qed.

Lemma filter_all_false {A} (f : A -> bool) (l : list A) :
  Forall (fun x => f x = false) l -> List.filter f l = [].
Proof. induction 1 as [|x l Hx _ IH]; simpl; [done|]. by rewrite Hx. Qed.

Lemma scan_headers_spec label headers :
  scan_headers label headers = true
  <-> exists h, h ∈ headers /\ occurs_in label (node_text h).
Proof.
  induction headers as [|h hs IH]; simpl.
  - split; [done|]. intros (h & Hh & _). by apply elem_of_nil in Hh.
  - destruct (contains label (node_text h)) eqn:E.
    + split; [|done]. intros _. exists h. split; [by left|].
      by apply contains_spec.
    + rewrite IH. split.
      * intros (h' & Hh & Ho). exists h'. split; [by right | done].
      * intros (h' & Hh & Ho). apply elem_of_cons in Hh as [-> | Hh].
        -- apply contains_spec in Ho. congruence.
        -- by exists h'.
Qed.

Lemma scan_headers_heading label section :
  scan_headers label (find_elements section "h2") = true
  <-> has_heading label section.
Proof. apply scan_headers_spec. Qed.

Lemma scan_sections_first label cards pre c post :
  cards = pre ++ c :: post ->
  Forall (fun s => ~ has_heading label s) pre ->
  has_heading label c ->
  scan_sections label cards = Some c.
Proof.
  intros -> Hpre Hc. induction Hpre as [|s pre Hs _ IH]; simpl.
  - apply scan_headers_heading in Hc. by rewrite Hc.
  - destruct (scan_headers label (find_elements s "h2")) eqn:E; [|done].
    by apply scan_headers_heading in E.
Qed.

Lemma scan_sections_none label cards :
  Forall (fun s => ~ has_heading label s) cards ->
  scan_sections label cards = None.
Proof.
  induction 1 as [|s cards Hs _ IH]; simpl; [done|].
  destruct (scan_headers label (find_elements s "h2")) eqn:E; [|done].
  by apply scan_headers_heading in E.
Qed.

Lemma ascend_unfold e ancs :
  ascend e ancs
  = if String.eqb (tag e) "section" then Some (mkNode e ancs)
    else match ancs with
         | [] => None
         | p :: ancs' => ascend p ancs'
         end.
Proof. by destruct ancs. Qed.

Lemma ascend_found e ancs path s up :
  e :: ancs = path ++ s :: up ->
  Forall (fun x => tag x <> "section"%string) path ->
  tag s = "section"%string ->
  ascend e ancs = Some (mkNode s up).
Proof.
  intros Hchain Hpath Hs. revert e ancs Hchain.
  induction Hpath as [|x path Hx _ IH]; intros e ancs Hchain; simpl in Hchain.
  - injection Hchain as -> ->. rewrite ascend_unfold, Hs. done.
  - injection Hchain as -> ->. rewrite ascend_unfold.
    apply String.eqb_neq in Hx. rewrite Hx.
    destruct path as [|y path]; simpl; by apply IH.
Qed.

Lemma ascend_none e ancs :
  Forall (fun x => tag x <> "section"%string) (e :: ancs) ->
  ascend e ancs = None.
Proof.
  revert e. induction ancs as [|p ancs IH]; intros e He.
  - apply Forall_cons in He as [He _]. apply String.eqb_neq in He.
    by rewrite ascend_unfold, He.
  - apply Forall_cons in He as [He Hrest]. apply String.eqb_neq in He.
    rewrite ascend_unfold, He. by apply IH.
Qed.

Lemma find_by_id_first doc i before a after :
  all_nodes doc = before ++ a :: after ->
  elem_id (elem a) = Some i ->
  Forall (fun n => elem_id (elem n) <> Some i) before ->
  driver_find_by_id doc i = Some a.
Proof.
  intros Hall Ha Hb. unfold driver_find_by_id.
  apply (filter_head_first _ _ before after); [done | |].
  - rewrite Ha. apply String.eqb_refl.
  - eapply Forall_impl; [exact Hb|]. intros n Hn. simpl in Hn.
    destruct (elem_id (elem n)) as [j|]; [|done].
    apply String.eqb_neq. congruence.
Qed.

Lemma find_by_id_none doc i :
  Forall (fun n => elem_id (elem n) <> Some i) (all_nodes doc) ->
  driver_find_by_id doc i = None.
Proof.
  intros H. unfold driver_find_by_id. rewrite filter_all_false; [done|].
  eapply Forall_impl; [exact H|]. intros n Hn. simpl in Hn.
  destruct (elem_id (elem n)) as [j|]; [|done].
  apply String.eqb_neq. congruence.
Qed.

Lemma match_up_nil ancs : match_up [] ancs = true.
Proof. by destruct ancs. Qed.

(** What the two queries of the locator select. *)
Lemma cards_query doc :
  driver_find_elements doc "section.artdeco-card"
  = List.filter (fun n => String.eqb "section" (tag (elem n))
                          && existsb (String.eqb "artdeco-card") (classes (elem n)))
                (all_nodes doc).
Proof.
  unfold driver_find_elements.
  assert (parse_selector "section.artdeco-card"
          = [mkCompound (Some "section"%string) ["artdeco-card"%string]]) as ->
      by reflexivity.
  apply filter_ext. intros n. unfold matches, matches_compound.
  cbn [rev app c_tag c_classes forallb].
  by rewrite match_up_nil, !andb_true_r.
Qed.

Lemma h2_query section :
  find_elements section "h2"
  = List.filter (fun n => String.eqb "h2" (tag (elem n)))
                (descendants (ancestors section) (elem section)).
Proof.
  unfold find_elements.
  assert (parse_selector "h2" = [mkCompound (Some "h2"%string) []]) as ->
      by reflexivity.
  apply filter_ext. intros n. unfold matches, matches_compound.
  cbn [rev app c_tag c_classes forallb].
  by rewrite match_up_nil, !andb_true_r.
Qed.

End LocatorFacts.

(** C5. The locator scans the cards (the [section.artdeco-card] elements,
    in document order) and returns the first one with an [h2] whose text
    contains the label, case-sensitively; when no card has one, it takes
    the first element whose [id] is the anchor (the label in lower case)
    and returns the nearest [section] among that element and its
    ancestors; when there is no such heading and no such element (or no
    section above it), it returns nothing, and the record then carries an
    empty sequence for that section. *)
Theorem section_locator
        (doc : Element) (label : str) (anchor : string) (url profile_url : str) :
  let cards := driver_find_elements doc "section.artdeco-card" in
  let found := locate_section doc cards label anchor in
  (* heading scan *)
  (forall pre c post,
     cards = pre ++ c :: post ->
     Forall (fun s => ~ has_heading label s) pre ->
     has_heading label c ->
     found = Some c)
  (* ascent from the anchor *)
  /\ (forall before a after path s up,
        Forall (fun s => ~ has_heading label s) cards ->
        all_nodes doc = before ++ a :: after ->
        elem_id (elem a) = Some anchor ->
        Forall (fun n => elem_id (elem n) <> Some anchor) before ->
        elem a :: ancestors a = path ++ s :: up ->
        Forall (fun e => tag e <> "section"%string) path ->
        tag s = "section"%string ->
        found = Some (mkNode s up))
  (* nothing found *)
  /\ (forall before a after,
        Forall (fun s => ~ has_heading label s) cards ->
        all_nodes doc = before ++ a :: after ->
        elem_id (elem a) = Some anchor ->
        Forall (fun n => elem_id (elem n) <> Some anchor) before ->
        Forall (fun e => tag e <> "section"%string) (elem a :: ancestors a) ->
        found = None)
  /\ (Forall (fun s => ~ has_heading label s) cards ->
      Forall (fun n => elem_id (elem n) <> Some anchor) (all_nodes doc) ->
      found = None)
  (* the labels and anchors of the two blocks, and the record *)
  /\ lit "experience" = lower (lit "Experience")
  /\ lit "education" = lower (lit "Education")
  /\ (redirected url = false ->
      locate_section doc cards (lit "Experience") "experience" = None ->
      scrape_founder_profile (Loaded url doc) profile_url !! "experiences"
      = Some (VList []))
  /\ (redirected url = false ->
      locate_section doc cards (lit "Education") "education" = None ->
      scrape_founder_profile (Loaded url doc) profile_url !! "education"
      = Some (VList []))
  (* the cards, in document order *)
  /\ cards
     = List.filter (fun n => String.eqb "section" (tag (elem n))
                             && existsb (String.eqb "artdeco-card") (classes (elem n)))
                   (all_nodes doc).
Proof.
  cbn zeta. unfold locate_section.
  split; [|split; [|split; [|split; [|split; [|split; [|split; [|split]]]]]]];
    [| | | | | | | | apply cards_query].
  - intros pre c post Hc Hpre Hh.
    by rewrite (scan_sections_first label _ pre c post Hc Hpre Hh).
  - intros before a after path s up Hno Hall Hid Hb Hchain Hpath Hs.
    rewrite (scan_sections_none label _ Hno).
    rewrite (find_by_id_first doc anchor before a after Hall Hid Hb).
    by apply (ascend_found _ _ path).
  - intros before a after Hno Hall Hid Hb Hup.
    rewrite (scan_sections_none label _ Hno).
    rewrite (find_by_id_first doc anchor before a after Hall Hid Hb).
    by apply ascend_none.
  - intros Hno Hid.
    by rewrite (scan_sections_none label _ Hno), (find_by_id_none doc anchor Hid).
  - reflexivity.
  - reflexivity.
  - intros Hr Hloc. destruct (scrape_loaded url doc profile_url Hr) as [-> _].
    unfold scrape_section, locate_section. by rewrite Hloc.
  - intros Hr Hloc. destruct (scrape_loaded url doc profile_url Hr) as [_ ->].
    unfold scrape_section, locate_section. by rewrite Hloc.
Qed.

(** Scenario B on the sample page: no education heading, no anchor. *)
Lemma section_locator_witness :
  locate_section Sample.page
    (driver_find_elements Sample.page "section.artdeco-card")
    (lit "Education") "education" = None
  /\ scrape_founder_profile (Loaded Sample.page_url Sample.page) Sample.page_url
       !! "education" = Some (VList []).
Proof.
  pose proof (section_locator Sample.page (lit "Education") "education"
                Sample.page_url Sample.page_url) as H.
  cbn zeta in H. destruct H as (_ & _ & _ & Hnone & _ & _ & _ & Hrec & _).
  assert (locate_section Sample.page
            (driver_find_elements Sample.page "section.artdeco-card")
            (lit "Education") "education" = None) as Hloc.
  { apply Hnone.
    - assert (driver_find_elements Sample.page "section.artdeco-card"
              = [Sample.card]) as -> by (vm_compute; reflexivity).
      constructor; [|constructor].
      intros (h & Hh & Ho).
      assert (find_elements Sample.card "h2"
              = [mkNode (Sample.el "h2" [] (lit "Experience") [])
                        (elem Sample.card :: ancestors Sample.card)]) as Hq
          by (vm_compute; reflexivity).
      rewrite Hq in Hh. apply list_elem_of_singleton in Hh. subst h.
      apply contains_spec in Ho. vm_compute in Ho. discriminate Ho.
    - apply Forall_forall. intros n Hn. apply list_elem_of_In in Hn.
      vm_compute in Hn.
      repeat (destruct Hn as [<- | Hn]; [vm_compute; discriminate|]).
      destruct Hn. }
  split; [exact Hloc|]. apply Hrec; [vm_compute; reflexivity | exact Hloc].
Defined.

(** The anchor path on the second sample page. *)
Example anchored_education :
  scrape_founder_profile (Loaded Sample.page_url Sample.anchored_page) Sample.page_url
    !! "education"
  = Some (VList [ <["school" := lit "MIT"]>
                    (<["degree" := lit "BSc"]>
                       (<["date_range" := lit "2001"]> ∅)) ]).
Proof. vm_compute. reflexivity. Qed.

(* ===================================================================== *)
(** ** The item enumerator *)
(* ===================================================================== *)

Lemma li_query (ul : Node) : find_elements ul "li" = li_descendants ul.
Proof.
  unfold find_elements, li_descendants.
  assert (parse_selector "li" = [mkCompound (Some "li"%string) []]) as ->
      by reflexivity.
  apply filter_ext. intros n. unfold matches, matches_compound.
  cbn [rev app c_tag c_classes forallb].
  by rewrite match_up_nil, !andb_true_r, String.eqb_sym.
Qed.

(** C6, as amended. When approach 1 finds nothing and the section has a
    list container, the enumerator returns every list item below the
    first list container, nested ones included, in document order,
    provided there is one; when the first list container has no list item
    below it, the enumerator goes on to approach 3. *)
Theorem first_list_items (section ul0 : Node) (rest : list Node) :
  find_elements section "li.artdeco-list__item" = [] ->
  find_elements section "ul" = ul0 :: rest ->
  (li_descendants ul0 <> [] -> enumerate_items section = li_descendants ul0)
  /\ (li_descendants ul0 = [] ->
      enumerate_items section
      = find_elements section "div.display-flex.flex-column").
Proof.
  intros H1 Hul. unfold enumerate_items. rewrite H1, Hul, li_query.
  cbn [is_empty]. split.
  - intros Hne. by destruct (li_descendants ul0).
  - intros ->. cbn [is_empty].
    by destruct (find_elements section "div.display-flex.flex-column").
Qed.

Lemma first_list_items_witness :
  enumerate_items Sample.nested_section = li_descendants Sample.companies.
Proof.
  apply (proj1 (first_list_items Sample.nested_section Sample.companies
                  [Sample.roles] eq_refl eq_refl)).
  vm_compute. discriminate.
Defined.

(** C6 as the specification words it: only the children of the first
    list container would be returned. The item of a nested list is
    returned too. *)
Lemma nested_items_are_returned :
  ~ (forall (section ul0 : Node) (rest : list Node),
       find_elements section "li.artdeco-list__item" = [] ->
       find_elements section "ul" = ul0 :: rest ->
       enumerate_items section = child_items ul0).
Proof.
  intros H.
  specialize (H Sample.nested_section Sample.companies [Sample.roles]
                eq_refl eq_refl).
  vm_compute in H. discriminate H.
Qed.

(* ===================================================================== *)
(** ** The decoder of the list columns *)
(* ===================================================================== *)

Section DecoderFacts.

Context (loads : str -> option json).

Lemma parse_text_blank (s : str) :
  strip s = [] ->
  parse_experiences loads (Text s) = Return (JArr [])
  /\ parse_education loads (Text s) = Return (JArr []).
Proof.
  intros Hs. unfold parse_experiences, parse_education. simpl. by rewrite Hs.
Qed.

Lemma parse_text_decode (s : str) :
  strip s <> [] ->
  parse_experiences loads (Text s)
  = Return (match loads s with Some v => v | None => JArr [] end)
  /\ parse_education loads (Text s)
     = Return (match loads s with Some v => v | None => JArr [] end).
Proof.
  intros Hs. unfold parse_experiences, parse_education. simpl.
  destruct (strip s) as [|c t]; [done|]. simpl. by destruct (loads s).
Qed.

(** C7. On a missing value, a blank text or a text the decoder rejects,
    [parse_experiences] and [parse_education] return the empty list and
    raise nothing; on a text the decoder accepts they return the decoded
    value; on any missing value or text they return. *)
Theorem decoder_total :
  (* missing *)
  (parse_experiences loads Missing = Return (JArr [])
   /\ parse_education loads Missing = Return (JArr []))
  (* blank *)
  /\ (forall s, strip s = [] ->
        parse_experiences loads (Text s) = Return (JArr [])
        /\ parse_education loads (Text s) = Return (JArr []))
  (* fails to decode *)
  /\ (forall s, loads s = None ->
        parse_experiences loads (Text s) = Return (JArr [])
        /\ parse_education loads (Text s) = Return (JArr []))
  (* well-formed *)
  /\ (forall s v, strip s <> [] -> loads s = Some v ->
        parse_experiences loads (Text s) = Return v
        /\ parse_education loads (Text s) = Return v)
  (* never an error *)
  /\ (forall x, x = Missing \/ (exists s, x = Text s) ->
        (exists v, parse_experiences loads x = Return v)
        /\ (exists v, parse_education loads x = Return v)).
Proof.
  split; [done|]. split; [exact parse_text_blank|]. split; [|split].
  - intros s Hl. destruct (decide (strip s = [])) as [Hs|Hs].
    + by apply parse_text_blank.
    + destruct (parse_text_decode s Hs) as [-> ->]. by rewrite Hl.
  - intros s v Hs Hl. destruct (parse_text_decode s Hs) as [-> ->].
    by rewrite Hl.
  - intros x [-> | [s ->]]; [by split; eexists|].
    destruct (decide (strip s = [])) as [Hs|Hs].
    + destruct (parse_text_blank s Hs) as [-> ->]. by split; eexists.
    + destruct (parse_text_decode s Hs) as [-> ->]. by split; eexists.
Qed.

(** A numeric cell is outside the column's values: [strip] is not defined
    on it and the exception is not one the function catches. *)
Remark parse_number_raises (digits : str) :
  parse_experiences loads (Number digits) = Raise AttributeError
  /\ parse_education loads (Number digits) = Raise AttributeError.
Proof. done. Qed.

End DecoderFacts.

Lemma decoder_total_witness :
  parse_experiences Sample.loads_known (Text Sample.mit_text) = Return Sample.mit_json
  /\ parse_education Sample.loads_known (Text (lit "[")) = Return (JArr []).
Proof.
  destruct (decoder_total Sample.loads_known) as (_ & _ & Hbad & Hgood & _).
  split.
  - apply (Hgood Sample.mit_text Sample.mit_json); [vm_compute; discriminate | reflexivity].
  - apply (Hbad (lit "[")). reflexivity.
Defined.

(* ===================================================================== *)
(** ** The frequency tables *)
(* ===================================================================== *)

Section TableFacts.

Lemma cut_char_cons (x c : N) (s : str) :
  cut [x] (c :: s)
  = if (x =? c)%N then Some ([], s)
    else match cut [x] s with
         | Some (a, b) => Some (c :: a, b)
         | None => None
         end.
Proof.
  cbn [cut startswith]. destruct (x =? c)%N; [|done].
  cbn [andb length drop]. by destruct s.
Qed.

Lemma split_char_cons (x c : N) (s : str) :
  split [x] (c :: s)
  = if (x =? c)%N then [] :: split [x] s
    else match split [x] s with
         | h :: t => (c :: h) :: t
         | [] => [[c]]
         end.
Proof.
  rewrite (split_unfold [x] (c :: s)), (split_unfold [x] s), cut_char_cons by done.
  destruct (x =? c)%N.
  - by rewrite (split_unfold [x] s) by done.
  - by destruct (cut [x] s) as [[a b]|].
Qed.

Lemma join_cons_head (p : str) (c : N) (h : str) (t : list str) :
  join p ((c :: h) :: t) = c :: join p (h :: t).
Proof. by destruct t. Qed.

(** Replacing the line break by a space touches the line breaks only. *)
Lemma replace_breaks (s : str) : replace nl space s = breaks_to_spaces s.
Proof.
  unfold replace, nl, space. induction s as [|c s IH].
  - reflexivity.
  - rewrite split_char_cons. cbn [breaks_to_spaces map]. rewrite N.eqb_sym.
    destruct (c =? 10)%N eqn:E.
    + pose proof (split_nonempty [10%N] s ltac:(done)) as Hne.
      destruct (split [10%N] s) as [|h t] eqn:Es; [done|].
      cbn [join]. cbn [app]. f_equal. exact IH.
    + pose proof (split_nonempty [10%N] s ltac:(done)) as Hne.
      destruct (split [10%N] s) as [|h t] eqn:Es; [done|].
      rewrite join_cons_head. f_equal. exact IH.
Qed.

Example two_breaks_two_spaces :
  replace nl space (lit "a" ++ nl ++ nl ++ lit "b") = lit "a  b".
Proof. reflexivity. Qed.

Lemma normalise_eq (edu : entry) (key : string) :
  normalise edu key = strip (breaks_to_spaces (get edu key)).
Proof. unfold normalise. by rewrite replace_breaks. Qed.

Lemma collect_edus (edus : list entry) (ds ss : list str) :
  fold_left collect_edu edus (ds, ss)
  = (ds ++ List.filter truthy
             (map (fun edu => strip (breaks_to_spaces (get edu "degree"))) edus),
     ss ++ List.filter truthy
             (map (fun edu => strip (breaks_to_spaces (get edu "school"))) edus)).
Proof.
  revert ds ss. induction edus as [|edu edus IH]; intros ds ss.
  - cbn [fold_left map List.filter]. by rewrite !app_nil_r.
  - cbn [fold_left map List.filter collect_edu]. rewrite IH, !normalise_eq.
    destruct (truthy (strip (breaks_to_spaces (get edu "degree")))),
             (truthy (strip (breaks_to_spaces (get edu "school"))));
      by rewrite <- ?app_assoc.
Qed.

Lemma collect_rows (parsed : list (list entry)) (ds ss : list str) :
  fold_left (fun acc edus => fold_left collect_edu edus acc) parsed (ds, ss)
  = (ds ++ List.filter truthy
             (map (fun edu => strip (breaks_to_spaces (get edu "degree")))
                  (concat parsed)),
     ss ++ List.filter truthy
             (map (fun edu => strip (breaks_to_spaces (get edu "school")))
                  (concat parsed))).
Proof.
  revert ds ss. induction parsed as [|edus parsed IH]; intros ds ss.
  - cbn [fold_left concat map List.filter]. by rewrite !app_nil_r.
  - cbn [fold_left concat]. rewrite collect_edus, IH, !map_app, !List.filter_app.
    by rewrite <- !app_assoc.
Qed.

Lemma count_filtered (f : entry -> str) (edus : list entry) (k : str) :
  k <> [] ->
  value_counts (List.filter truthy (map f edus)) k
  = length (List.filter (fun edu => bool_decide (f edu = k)) edus).
Proof.
  intros Hk. unfold value_counts. induction edus as [|edu edus IH]; simpl; [done|].
  destruct (truthy (f edu)) eqn:Et; simpl.
  - destruct (bool_decide (f edu = k)); simpl; by rewrite IH.
  - rewrite IH. apply truthy_false in Et.
    rewrite bool_decide_eq_false_2; [done | congruence].
Qed.

End TableFacts.

(** C8. The keys of the degree and school tables are the stored values
    with every line break replaced by one space and the white space at
    both ends removed (empty results left out), and a key's count is the
    number of stored entries that give it. The extractor stores the
    trimmed text of the matched element, and trimming removes white space
    at the two ends only, so line breaks inside the value stay: the
    degree ["Bachelor's\\nof Science"] is stored as it is and counted as
    ["Bachelor's of Science"]. *)
Theorem table_keys_collapse_breaks (parsed : list (list entry)) :
  (* the keys *)
  fst (collect parsed)
  = List.filter truthy
      (map (fun edu => strip (breaks_to_spaces (get edu "degree"))) (concat parsed))
  /\ snd (collect parsed)
     = List.filter truthy
         (map (fun edu => strip (breaks_to_spaces (get edu "school"))) (concat parsed))
  (* the counts *)
  /\ (forall k, k <> [] ->
        degree_counts parsed k
        = length (List.filter
                    (fun edu => bool_decide (strip (breaks_to_spaces (get edu "degree")) = k))
                    (concat parsed))
        /\ school_counts parsed k
           = length (List.filter
                       (fun edu => bool_decide (strip (breaks_to_spaces (get edu "school")) = k))
                       (concat parsed)))
  (* the extractor *)
  /\ (forall edu t,
        t <> [] ->
        (first_match edu degree_selectors = Some t ->
         extract_education edu !! "degree" = Some t)
        /\ (first_match edu school_selectors = Some t ->
            extract_education edu !! "school" = Some t))
  /\ (forall s, exists l r,
        s = l ++ strip s ++ r
        /\ forallb isspace l = true /\ forallb isspace r = true)
  (* scenario C *)
  /\ extract_education Sample.bachelor_item !! "degree"
     = Some (lit "Bachelor's" ++ nl ++ lit "of Science")
  /\ fst (collect [[extract_education Sample.bachelor_item]])
     = [lit "Bachelor's of Science"].
Proof.
  unfold degree_counts, school_counts, collect. rewrite collect_rows.
  cbn [fst snd app].
  split; [done|]. split; [done|]. split; [|split; [|split; [|split]]].
  - intros k Hk. split; by apply count_filtered.
  - intros edu t Ht. unfold extract_education. split; intros Hm.
    + rewrite (extract_field_other edu_date_spec) by done.
      rewrite (extract_field_selector degree_spec edu _ t Hm Ht).
      cbn [key degree_spec]. by rewrite lookup_insert_eq.
    + rewrite (extract_field_other edu_date_spec) by done.
      rewrite (extract_field_other degree_spec) by done.
      rewrite (extract_field_selector school_spec edu _ t Hm Ht).
      cbn [key school_spec]. by rewrite lookup_insert_eq.
  - exact strip_split.
  - vm_compute. reflexivity.
  - vm_compute. reflexivity.
Qed.

Lemma table_keys_collapse_breaks_witness :
  degree_counts [[extract_education Sample.bachelor_item]]
                (lit "Bachelor's of Science") = 1.
Proof.
  destruct (table_keys_collapse_breaks [[extract_education Sample.bachelor_item]])
    as (_ & _ & Hcount & _).
  rewrite (proj1 (Hcount (lit "Bachelor's of Science") ltac:(discriminate))).
  vm_compute. reflexivity.
Defined.

(* ===================================================================== *)
(** ** Running the extractor again *)
(* ===================================================================== *)

Section AgainFacts.

Implicit Types d : entry.

Lemma missing_insert k (v : str) d : missing k (<[k := v]> d) = negb (truthy v).
Proof. unfold missing. by rewrite lookup_insert_eq. Qed.

Ltac settle_again :=
  repeat first
    [ rewrite insert_insert_eq
    | rewrite set_company_twice
    | rewrite missing_insert
    | rewrite missing_company_set
    | match goal with H : truthy _ = _ |- _ => rewrite H end
    | match goal with H : missing _ _ = _ |- _ => rewrite H end
    | progress cbn [negb] ];
  try done.

Lemma extract_field_again spec item d :
  extract_field spec item (extract_field spec item d) = extract_field spec item d.
Proof.
  unfold extract_field.
  destruct (first_match item (selectors spec)) as [t|].
  - destruct (truthy t) eqn:Et; [settle_again|].
    destruct (text_lines item !! index spec) as [line|]; settle_again.
  - destruct (missing (key spec) d) eqn:Ed; [|settle_again].
    destruct (text_lines item !! index spec) as [line|]; [|settle_again].
    destruct (truthy (strip line)) eqn:El; settle_again.
Qed.

Lemma extract_company_again item d :
  extract_company item (extract_company item d) = extract_company item d.
Proof.
  unfold extract_company.
  destruct (first_match item company_selectors) as [t|].
  - destruct (truthy (company_of t)) eqn:Et; [settle_again|].
    destruct (text_lines item !! 1) as [line|]; settle_again.
  - destruct (missing "company" d) eqn:Ed; [|settle_again].
    destruct (text_lines item !! 1) as [line|]; [|settle_again].
    destruct (truthy (company_of (strip line))) eqn:El; settle_again.
Qed.

(** The selector loop reads the texts of the matches and nothing else. *)
Lemma first_match_observed item item' sels :
  (forall s, s ∈ sels ->
     map node_text (find_elements item s) = map node_text (find_elements item' s)) ->
  first_match item sels = first_match item' sels.
Proof.
  induction sels as [|s sels IH]; intros Hobs; [done|]. cbn [first_match].
  pose proof (Hobs s ltac:(by left)) as Hs.
  destruct (find_elements item s) as [|x xs], (find_elements item' s) as [|y ys];
    try done.
  - apply IH. intros s' Hs'. apply Hobs. by right.
  - cbn [map] in Hs. by injection Hs as -> _.
Qed.

End AgainFacts.

(** C9. Extraction of a field is a function of what the item shows (the
    texts of the selector matches and the item text): two runs on the
    same item give the same entry, as do runs on items that show the
    same; and running the extraction of a field again on the entry it
    produced changes nothing. For the plain fields and for the company
    block. *)
Theorem extraction_repeatable (spec : FieldSpec) (item : Node) (d : entry) :
  extract_field spec item (extract_field spec item d) = extract_field spec item d
  /\ extract_company item (extract_company item d) = extract_company item d
  /\ (forall item',
        same_observations (selectors spec) item item' ->
        extract_field spec item' d = extract_field spec item d)
  /\ (forall item',
        same_observations company_selectors item item' ->
        extract_company item' d = extract_company item d).
Proof.
  split; [apply extract_field_again|]. split; [apply extract_company_again|].
  split; intros item' [Htext Hobs].
  - unfold extract_field, text_lines.
    by rewrite (first_match_observed item item' _ Hobs), Htext.
  - unfold extract_company, text_lines.
    by rewrite (first_match_observed item item' _ Hobs), Htext.
Qed.

Lemma extraction_repeatable_witness :
  extract_field title_spec Sample.badge_in_list ∅
  = extract_field title_spec Sample.badge_item ∅.
Proof.
  apply (proj1 (proj2 (proj2
           (extraction_repeatable title_spec Sample.badge_item ∅)))).
  split; [reflexivity|].
  intros s Hs. vm_compute in Hs.
  repeat (apply elem_of_cons in Hs as [-> | Hs]; [vm_compute; reflexivity|]).
  by apply elem_of_nil in Hs.
Defined.

(* ===================================================================== *)
(** ** The shape of the record *)
(* ===================================================================== *)

Lemma first_element_text_trimmed doc sels t :
  first_element_text doc sels = Some t -> trimmed t.
Proof.
  induction sels as [|s sels IH]; simpl; [done|].
  destruct (driver_find_element doc s) as [el|]; [|done].
  intros [= <-]. apply strip_trimmed.
Qed.

Lemma initial_data_shaped profile_url : well_shaped profile_url (initial_data profile_url).
Proof.
  unfold well_shaped, initial_data. split; [|split; [|split; [|split; [|split]]]].
  - rewrite !dom_insert_L, dom_empty_L. set_solver.
  - by rewrite !lookup_insert_ne, lookup_insert_eq by done.
  - left. by rewrite !lookup_insert_ne, lookup_insert_eq by done.
  - left. by rewrite !lookup_insert_ne, lookup_insert_eq by done.
  - eexists. by rewrite !lookup_insert_ne, lookup_insert_eq by done.
  - eexists. by rewrite lookup_insert_eq.
Qed.

Ltac read_record :=
  repeat first [ rewrite lookup_insert_eq | rewrite lookup_insert_ne by done ].

(** C10. Whatever the navigation did (an exception, a redirect to a
    login or authwall address, a loaded page), the record has exactly the
    keys [profile_url], [name], [headline], [experiences] and [education];
    [profile_url] is the given address; [name] and [headline] are [None]
    or a trimmed string; [experiences] and [education] are lists. After a
    failed or redirected navigation the record is the initial one. *)
Theorem record_shape (nav : Navigation) (profile_url : str) :
  well_shaped profile_url (scrape_founder_profile nav profile_url)
  /\ (nav = NavError ->
      scrape_founder_profile nav profile_url = initial_data profile_url)
  /\ (forall url doc, nav = Loaded url doc -> redirected url = true ->
      scrape_founder_profile nav profile_url = initial_data profile_url).
Proof.
  split; [|split].
  - destruct nav as [|url doc]; [apply initial_data_shaped|].
    unfold scrape_founder_profile.
    destruct (redirected url); [apply initial_data_shaped|].
    pose proof (first_element_text_trimmed doc name_selectors) as Hname.
    pose proof (first_element_text_trimmed doc headline_selectors) as Hhead.
    destruct (first_element_text doc name_selectors) as [n|];
      destruct (first_element_text doc headline_selectors) as [h|];
      unfold well_shaped, initial_data;
      (split; [rewrite !dom_insert_L, dom_empty_L; set_solver|]);
      (split; [by read_record|]);
      (split; [first [ left; by read_record
                     | right; eexists; split; [by read_record | by apply Hname] ]|]);
      (split; [first [ left; by read_record
                     | right; eexists; split; [by read_record | by apply Hhead] ]|]);
      split; eexists; by read_record.
  - by intros ->.
  - intros url doc -> Hr. unfold scrape_founder_profile. by rewrite Hr.
Qed.

Lemma record_shape_witness :
  scrape_founder_profile
    (Loaded (lit "https://www.linkedin.com/authwall?trk=x") Sample.page)
    Sample.page_url
  = initial_data Sample.page_url.
Proof.
  apply (proj2 (proj2 (record_shape
           (Loaded (lit "https://www.linkedin.com/authwall?trk=x") Sample.page)
           Sample.page_url))
           (lit "https://www.linkedin.com/authwall?trk=x") Sample.page eq_refl).
  vm_compute. reflexivity.
Defined.

(** The record of the sample page. *)
Example sample_record_name :
  scrape_founder_profile (Loaded Sample.page_url Sample.page) Sample.page_url
    !! "name" = Some (VStr (lit "Ada Lovelace")).
Proof. vm_compute. reflexivity. Qed.

(* ===================================================================== *)
(** ** Further properties of the entries *)
(* ===================================================================== *)

Section EntryFacts.

Implicit Types d : entry.
Implicit Types item : Node.

Lemma text_lines_first item : exists line, text_lines item !! 0 = Some line.
Proof.
  unfold text_lines. pose proof (split_nonempty nl (node_text item) nl_nonempty).
  destruct (split nl (node_text item)) as [|line rest]; [done|]. by exists line.
Qed.

Lemma missing_false key d :
  missing key d = false -> exists v, d !! key = Some v /\ v <> [].
Proof.
  unfold missing. destruct (d !! key) as [v|]; [|done].
  intros H. exists v. split; [done|]. apply truthy_true.
  by destruct (truthy v).
Qed.

(** A field whose fallback line is line 0 is always set. *)
Lemma extract_field_first_line spec item d :
  index spec = 0 -> is_Some (extract_field spec item d !! key spec).
Proof.
  intros Hi. unfold extract_field. rewrite Hi.
  destruct (text_lines_first item) as [line ->].
  destruct (first_match item (selectors spec)) as [t|].
  - destruct (missing _ _); by rewrite lookup_insert_eq.
  - destruct (missing (key spec) d) eqn:Ed.
    + by rewrite lookup_insert_eq.
    + apply missing_false in Ed as (v & Hv & _). by exists v.
Qed.

Lemma extract_company_other item d k :
  k <> "company"%string -> k <> "employment_type"%string ->
  extract_company item d !! k = d !! k.
Proof.
  intros Hc He. unfold extract_company.
  destruct (first_match item company_selectors) as [t|];
    destruct (missing _ _); try destruct (text_lines item !! 1);
    rewrite ?set_company_eq, ?lookup_insert_ne by done; done.
Qed.

(** The company block leaves the entry alone or ends with a compound
    parse. *)
Lemma extract_company_cases item d :
  extract_company item d = d
  \/ exists t d', extract_company item d = set_company t d'.
Proof.
  unfold extract_company.
  destruct (first_match item company_selectors) as [t|].
  - right. destruct (missing _ _); [destruct (text_lines item !! 1)|]; eauto.
  - destruct (missing _ _); [destruct (text_lines item !! 1)|]; eauto.
Qed.

Lemma set_company_lookups t d :
  set_company t d !! "company" = Some (company_of t)
  /\ set_company t d !! "employment_type" = Some (employment_type_of t).
Proof.
  rewrite set_company_eq. split.
  - rewrite lookup_insert_ne by done. by rewrite lookup_insert_eq.
  - by rewrite lookup_insert_eq.
Qed.

(** From an entry without company fields, both are set, from one text,
    or neither. *)
Lemma extract_company_pair item d :
  d !! "company" = None -> d !! "employment_type" = None ->
  (extract_company item d !! "company" = None
   /\ extract_company item d !! "employment_type" = None)
  \/ exists t,
       extract_company item d !! "company" = Some (company_of t)
       /\ extract_company item d !! "employment_type" = Some (employment_type_of t).
Proof.
  intros Hc He. destruct (extract_company_cases item d) as [-> | (t & d' & ->)].
  - by left.
  - right. exists t. apply set_company_lookups.
Qed.

Lemma experience_company_pair item :
  (extract_experience item !! "company" = None
   /\ extract_experience item !! "employment_type" = None)
  \/ exists t,
       extract_experience item !! "company" = Some (company_of t)
       /\ extract_experience item !! "employment_type" = Some (employment_type_of t).
Proof.
  destruct (extract_experience_company item) as [-> ->].
  apply extract_company_pair; by rewrite (extract_field_other title_spec).
Qed.

End EntryFacts.

Lemma experience_key_cases (item : Node) (k : string) :
  is_Some (extract_experience item !! k) ->
  k ∈ ["title"; "company"; "employment_type"; "date_range"]%string.
Proof.
  intros Hk. unfold extract_experience in Hk.
  destruct (decide (k = "date_range")) as [->|H1]; [set_solver|].
  rewrite (extract_field_other date_spec) in Hk by done.
  destruct (decide (k = "company")) as [->|H2]; [set_solver|].
  destruct (decide (k = "employment_type")) as [->|H3]; [set_solver|].
  rewrite extract_company_other in Hk by done.
  destruct (decide (k = "title")) as [->|H4]; [set_solver|].
  rewrite (extract_field_other title_spec) in Hk by done.
  rewrite lookup_empty in Hk. by destruct Hk.
Qed.

Lemma education_key_cases (item : Node) (k : string) :
  is_Some (extract_education item !! k) ->
  k ∈ ["school"; "degree"; "date_range"]%string.
Proof.
  intros Hk. unfold extract_education in Hk.
  destruct (decide (k = "date_range")) as [->|H1]; [set_solver|].
  rewrite (extract_field_other edu_date_spec) in Hk by done.
  destruct (decide (k = "degree")) as [->|H2]; [set_solver|].
  rewrite (extract_field_other degree_spec) in Hk by done.
  destruct (decide (k = "school")) as [->|H4]; [set_solver|].
  rewrite (extract_field_other school_spec) in Hk by done.
  rewrite lookup_empty in Hk. by destruct Hk.
Qed.

(** X1. Every experience entry has a [title] key and every education
    entry a [school] key (possibly with an empty value); an entry has no
    key outside its three or four field names; [company] and
    [employment_type] are present together or not at all. *)
Theorem entry_keys (item : Node) :
  (is_Some (extract_experience item !! "title")
   /\ (forall k, is_Some (extract_experience item !! k) ->
         k ∈ ["title"; "company"; "employment_type"; "date_range"]%string)
   /\ (is_Some (extract_experience item !! "company")
       <-> is_Some (extract_experience item !! "employment_type")))
  /\ (is_Some (extract_education item !! "school")
      /\ (forall k, is_Some (extract_education item !! k) ->
            k ∈ ["school"; "degree"; "date_range"]%string)).
Proof.
  split; [split; [|split]|split].
  - unfold extract_experience.
    rewrite (extract_field_other date_spec), extract_company_other by done.
    by apply extract_field_first_line.
  - apply experience_key_cases.
  - destruct (experience_company_pair item) as [[-> ->] | (t & -> & ->)];
      split; intros H; try done; by destruct H.
  - unfold extract_education.
    rewrite (extract_field_other edu_date_spec), (extract_field_other degree_spec) by done.
    by apply extract_field_first_line.
  - apply education_key_cases.
Qed.

Section SeparatorFacts.

Implicit Types s p a b t : str.

Lemma occurs_in_trans p v s : occurs_in p v -> occurs_in v s -> occurs_in p s.
Proof.
  intros (a & b & ->) (a' & b' & ->). exists (a' ++ a), (b ++ b').
  by rewrite <- !app_assoc.
Qed.

Lemma occurs_in_self s : occurs_in s s.
Proof. exists [], []. by rewrite app_nil_r. Qed.

(** The text before the first occurrence holds no occurrence. *)
Lemma cut_before_free p s a b :
  p <> [] -> cut p s = Some (a, b) -> ~ occurs_in p a.
Proof.
  intros Hp Hc (x & y & ->).
  pose proof (cut_sound _ _ _ _ Hc) as Hs.
  pose proof (cut_first _ _ _ _ Hc x (y ++ p ++ b)) as Hlen.
  rewrite <- !app_assoc in Hs. specialize (Hlen Hs).
  rewrite !length_app in Hlen. destruct p; [done|]. simpl in Hlen. lia.
Qed.

Lemma company_of_free t : ~ occurs_in sep (company_of t).
Proof.
  unfold company_of. destruct (cut sep t) as [[a b]|] eqn:Hc.
  - by apply (cut_before_free sep t a b).
  - by apply cut_complete.
Qed.

Lemma employment_type_of_free t : ~ occurs_in sep (employment_type_of t).
Proof.
  unfold employment_type_of. destruct (cut sep t) as [[a b]|] eqn:Hc.
  - destruct (cut sep b) as [[e r]|] eqn:He.
    + by apply (cut_before_free sep b e r).
    + by apply cut_complete.
  - intros (x & y & H). by destruct x.
Qed.

Lemma strip_occurs s : occurs_in (strip s) s.
Proof. destruct (strip_split s) as (l & r & H & _). by exists l, r. Qed.

Lemma company_of_occurs t : occurs_in (company_of t) t.
Proof.
  unfold company_of. destruct (cut sep t) as [[a b]|] eqn:Hc.
  - exists [], (sep ++ b). by apply cut_sound in Hc.
  - apply occurs_in_self.
Qed.

Lemma employment_type_of_occurs t : occurs_in (employment_type_of t) t.
Proof.
  unfold employment_type_of. destruct (cut sep t) as [[a b]|] eqn:Hc.
  - apply cut_sound in Hc. destruct (cut sep b) as [[e r]|] eqn:He.
    + apply cut_sound in He. exists (a ++ sep), (sep ++ r). subst.
      by rewrite <- !app_assoc.
    + exists (a ++ sep), []. subst. by rewrite app_nil_r, <- !app_assoc.
  - by exists [], t.
Qed.

(** No part of a split holds the separator. *)
Lemma split_parts_free p s x :
  p <> [] -> x ∈ split p s -> ~ occurs_in p x.
Proof.
  intros Hp. remember (length s) as n eqn:Hn. revert s Hn x.
  induction n as [n IH] using lt_wf_ind. intros s Hn x.
  rewrite split_unfold by done.
  destruct (cut p s) as [[a b]|] eqn:Hc.
  - intros [-> | Hx]%elem_of_cons.
    + by apply (cut_before_free p s a b).
    + apply (IH (length b)) with (s := b); [|done|done].
      subst n. by apply (cut_shorter p s a b).
  - intros ->%list_elem_of_singleton. by apply cut_complete.
Qed.

Lemma text_line_free item i line :
  text_lines item !! i = Some line -> ~ occurs_in nl line.
Proof.
  intros H. apply (split_parts_free nl (node_text item)); [done|].
  by apply list_elem_of_lookup_2 in H.
Qed.

End SeparatorFacts.

(** X2. Neither the [company] nor the [employment_type] of an experience
    entry ever contains the separator [" · "], whatever the page shows. *)
Theorem company_fields_hold_no_separator (item : Node) (v : str) :
  extract_experience item !! "company" = Some v
  \/ extract_experience item !! "employment_type" = Some v ->
  ~ occurs_in sep v.
Proof.
  destruct (experience_company_pair item) as [[-> ->] | (t & -> & ->)].
  - by intros [H | H].
  - intros [[= <-] | [= <-]];
      [apply company_of_free | apply employment_type_of_free].
Qed.

Lemma company_fields_hold_no_separator_witness :
  ~ occurs_in sep (lit "Full-time").
Proof.
  apply (company_fields_hold_no_separator Sample.remote_item (lit "Full-time")).
  right. vm_compute. reflexivity.
Defined.

Section FallbackFacts.

Implicit Types item : Node.

Lemma company_of_nil : company_of [] = [].
Proof. reflexivity. Qed.

Lemma employment_type_of_nil : employment_type_of [] = [].
Proof. reflexivity. Qed.

(** The entry of an item without selector matches, field by field. *)
Lemma fallback_fields item :
  Forall (fun s => find_elements item s = [])
         (title_selectors ++ company_selectors ++ date_selectors) ->
  extract_experience item !! "title" = strip <$> text_lines item !! 0
  /\ extract_experience item !! "company"
     = (fun l => company_of (strip l)) <$> text_lines item !! 1
  /\ extract_experience item !! "employment_type"
     = (fun l => employment_type_of (strip l)) <$> text_lines item !! 1
  /\ extract_experience item !! "date_range" = strip <$> text_lines item !! 2.
Proof.
  intros Hno.
  apply Forall_app in Hno as [Htitle Hno].
  apply Forall_app in Hno as [Hcompany Hdate].
  assert (extract_field title_spec item ∅
          = match text_lines item !! 0 with
            | Some l => <["title" := strip l]> ∅
            | None => ∅
            end) as Ht.
  { unfold extract_field. cbn [selectors key index title_spec].
    by rewrite (first_match_none item _ Htitle). }
  split; [|split; [|split]].
  - unfold extract_experience.
    rewrite (extract_field_other date_spec), extract_company_other, Ht by done.
    destruct (text_lines item !! 0); [by rewrite lookup_insert_eq | done].
  - destruct (extract_experience_company item) as [-> _].
    unfold extract_company.
    rewrite (first_match_none item _ Hcompany), title_leaves_company_missing.
    destruct (text_lines item !! 1) as [l|]; cbn [fmap option_fmap option_map].
    + apply set_company_lookups.
    + by rewrite (extract_field_other title_spec).
  - destruct (extract_experience_company item) as [_ ->].
    unfold extract_company.
    rewrite (first_match_none item _ Hcompany), title_leaves_company_missing.
    destruct (text_lines item !! 1) as [l|]; cbn [fmap option_fmap option_map].
    + apply set_company_lookups.
    + by rewrite (extract_field_other title_spec).
  - unfold extract_experience, extract_field at 1.
    cbn [selectors key index date_spec].
    rewrite (first_match_none item _ Hdate). unfold missing.
    rewrite extract_company_other, (extract_field_other title_spec) by done.
    rewrite lookup_empty.
    destruct (text_lines item !! 2) as [l|]; cbn [fmap option_fmap option_map].
    + by rewrite lookup_insert_eq.
    + by rewrite extract_company_other, (extract_field_other title_spec).
Qed.

End FallbackFacts.

Ltac read_via H Hk :=
  let H' := fresh in
  pose proof (eq_trans (eq_sym H) Hk) as H'; clear Hk; rename H' into Hk.

(** X3. On an item without any selector match the entry is read off the
    first three text lines only: title from line 0, company and
    employment type from line 1, date range from line 2, a field being
    absent when its line is. Such an item is kept exactly when one of
    its first three lines is not blank, and none of its values contains a
    line break. *)
Theorem fallback_reads_three_lines (item : Node) :
  Forall (fun s => find_elements item s = [])
         (title_selectors ++ company_selectors ++ date_selectors) ->
  (extract_experience item !! "title" = strip <$> text_lines item !! 0
   /\ extract_experience item !! "company"
      = (fun l => company_of (strip l)) <$> text_lines item !! 1
   /\ extract_experience item !! "employment_type"
      = (fun l => employment_type_of (strip l)) <$> text_lines item !! 1
   /\ extract_experience item !! "date_range" = strip <$> text_lines item !! 2)
  /\ (any_values (extract_experience item) = true
      <-> exists i line,
            i < 3 /\ text_lines item !! i = Some line /\ strip line <> [])
  /\ (forall k v, extract_experience item !! k = Some v -> ~ occurs_in nl v).
Proof.
  intros Hno. pose proof (fallback_fields item Hno) as (Ht & Hc & He & Hd).
  split; [done|]. split.
  - rewrite any_values_spec. split.
    + intros (k & v & Hk & Hv).
      pose proof (experience_key_cases item k ltac:(by exists v)) as Hcase.
      repeat (apply elem_of_cons in Hcase as [-> | Hcase]);
        [read_via Ht Hk | read_via Hc Hk | read_via He Hk
         | read_via Hd Hk | by apply elem_of_nil in Hcase].
      * destruct (text_lines item !! 0) as [l|] eqn:El; [|done].
        injection Hk as <-. exists 0, l. split; [lia | done].
      * destruct (text_lines item !! 1) as [l|] eqn:El; [|done].
        injection Hk as <-. exists 1, l. split; [lia|]. split; [done|].
        intros Hb. by rewrite Hb in Hv.
      * destruct (text_lines item !! 1) as [l|] eqn:El; [|done].
        injection Hk as <-. exists 1, l. split; [lia|]. split; [done|].
        intros Hb. by rewrite Hb in Hv.
      * destruct (text_lines item !! 2) as [l|] eqn:El; [|done].
        injection Hk as <-. exists 2, l. split; [lia | done].
    + intros (i & l & Hi & Hl & Hne).
      destruct i as [|[|[|i]]]; [| | |lia].
      * exists "title"%string, (strip l).
        split; [etrans; [exact Ht|]; by rewrite Hl | done].
      * exists "company"%string, (company_of (strip l)).
        split; [etrans; [exact Hc|]; by rewrite Hl|].
        apply company_of_trimmed; [apply strip_trimmed | done].
      * exists "date_range"%string, (strip l).
        split; [etrans; [exact Hd|]; by rewrite Hl | done].
  - intros k v Hk.
    pose proof (experience_key_cases item k ltac:(by exists v)) as Hcase.
    repeat (apply elem_of_cons in Hcase as [-> | Hcase]);
      [read_via Ht Hk | read_via Hc Hk | read_via He Hk
       | read_via Hd Hk | by apply elem_of_nil in Hcase].
    + destruct (text_lines item !! 0) as [l|] eqn:El; [|done].
      injection Hk as <-. intros Ho. apply (text_line_free item 0 l El).
      eapply occurs_in_trans; [exact Ho | apply strip_occurs].
    + destruct (text_lines item !! 1) as [l|] eqn:El; [|done].
      injection Hk as <-. intros Ho. apply (text_line_free item 1 l El).
      eapply occurs_in_trans; [|apply strip_occurs].
      eapply occurs_in_trans; [exact Ho | apply company_of_occurs].
    + destruct (text_lines item !! 1) as [l|] eqn:El; [|done].
      injection Hk as <-. intros Ho. apply (text_line_free item 1 l El).
      eapply occurs_in_trans; [|apply strip_occurs].
      eapply occurs_in_trans; [exact Ho | apply employment_type_of_occurs].
    + destruct (text_lines item !! 2) as [l|] eqn:El; [|done].
      injection Hk as <-. intros Ho. apply (text_line_free item 2 l El).
      eapply occurs_in_trans; [exact Ho | apply strip_occurs].
Qed.

Lemma fallback_reads_three_lines_witness :
  extract_experience Sample.scenario_a_item !! "date_range"
  = strip <$> text_lines Sample.scenario_a_item !! 2.
Proof.
  apply (fallback_reads_three_lines Sample.scenario_a_item).
  vm_compute. repeat constructor.
Defined.

Section TrimFacts.

Implicit Types d : entry.

Lemma extract_field_trimmed spec item d :
  (forall v, d !! key spec = Some v -> trimmed v) ->
  forall v, extract_field spec item d !! key spec = Some v -> trimmed v.
Proof.
  intros Hd v. unfold extract_field.
  destruct (first_match item (selectors spec)) as [t|] eqn:Hm.
  - pose proof (first_match_trimmed _ _ _ Hm) as Ht.
    destruct (missing _ _).
    + destruct (text_lines item !! index spec) as [line|];
        rewrite lookup_insert_eq; intros [= <-]; [apply strip_trimmed | done].
    + rewrite lookup_insert_eq. by intros [= <-].
  - destruct (missing _ _); [|apply Hd].
    destruct (text_lines item !! index spec) as [line|]; [|apply Hd].
    rewrite lookup_insert_eq. intros [= <-]. apply strip_trimmed.
Qed.

End TrimFacts.

(** X4. The values of [title] and [date_range] of an experience entry and
    of [school], [degree] and [date_range] of an education entry have no
    white space at either end. The company text is not trimmed again
    after the split: ["Acme  · Full-time"] gives the company ["Acme "]. *)
Theorem plain_fields_trimmed (item : Node) (k : string) (v : str) :
  (k ∈ ["title"; "date_range"]%string ->
   extract_experience item !! k = Some v -> trimmed v)
  /\ (k ∈ ["school"; "degree"; "date_range"]%string ->
      extract_education item !! k = Some v -> trimmed v)
  /\ (extract_experience Cases.spaced_item !! "company" = Some (lit "Acme ")
      /\ ~ trimmed (lit "Acme ")).
Proof.
  split; [|split].
  - intros Hk Hv. unfold extract_experience in Hv.
    repeat (apply elem_of_cons in Hk as [-> | Hk]); [| |by apply elem_of_nil in Hk].
    + rewrite (extract_field_other date_spec), extract_company_other in Hv by done.
      apply (extract_field_trimmed title_spec item ∅); [|exact Hv].
      intros w Hw. by rewrite lookup_empty in Hw.
    + eapply (extract_field_trimmed date_spec item); [|exact Hv].
      intros w. cbn [key date_spec].
      rewrite extract_company_other, (extract_field_other title_spec) by done.
      by rewrite lookup_empty.
  - intros Hk Hv. unfold extract_education in Hv.
    repeat (apply elem_of_cons in Hk as [-> | Hk]); [| | |by apply elem_of_nil in Hk].
    + rewrite (extract_field_other edu_date_spec), (extract_field_other degree_spec)
        in Hv by done.
      apply (extract_field_trimmed school_spec item ∅); [|exact Hv].
      intros w Hw. by rewrite lookup_empty in Hw.
    + rewrite (extract_field_other edu_date_spec) in Hv by done.
      eapply (extract_field_trimmed degree_spec item); [|exact Hv].
      intros w. cbn [key degree_spec].
      rewrite (extract_field_other school_spec) by done.
      by rewrite lookup_empty.
    + eapply (extract_field_trimmed edu_date_spec item); [|exact Hv].
      intros w. cbn [key edu_date_spec].
      rewrite (extract_field_other degree_spec), (extract_field_other school_spec)
        by done.
      by rewrite lookup_empty.
  - split; [vm_compute; reflexivity|].
    intros [_ Hl]. specialize (Hl 32%N eq_refl). discriminate Hl.
Qed.

Lemma plain_fields_trimmed_witness : trimmed (lit "VP Engineering").
Proof.
  apply (proj1 (plain_fields_trimmed Sample.scenario_a_item "title"
                  (lit "VP Engineering"))).
  - apply elem_of_cons. by left.
  - vm_compute. reflexivity.
Defined.

(* ===================================================================== *)
(** ** Further properties of the queries *)
(* ===================================================================== *)

Section TreeFacts.

Lemma Element_forall_ind (P : Element -> Prop) :
  (forall t i c tx ch, Forall P ch -> P (mkElement t i c tx ch)) ->
  forall e, P e.
Proof.
  intros H. fix IH 1. intros [t i c tx ch]. apply H.
  induction ch as [|x r IHr]; constructor; [apply IH | exact IHr].
Qed.

Lemma descendants_unfold ancs e :
  descendants ancs e
  = flat_map (fun c => mkNode c (e :: ancs) :: descendants (e :: ancs) c)
             (children e).
Proof. by destruct e. Qed.

Lemma elem_of_descendants ancs e n :
  n ∈ descendants ancs e
  <-> exists c, c ∈ children e
                /\ (n = mkNode c (e :: ancs) \/ n ∈ descendants (e :: ancs) c).
Proof.
  rewrite descendants_unfold, list_elem_of_In, in_flat_map. split.
  - intros (c & Hc & [<- | Hn]); exists c; rewrite !list_elem_of_In; eauto.
  - intros (c & Hc & [-> | Hn]); exists c;
      (split; [by apply list_elem_of_In|]);
      [by left | right; by apply list_elem_of_In].
Qed.

(** Below a node that is below [e] is below [e]. *)
Lemma descendants_trans e :
  forall ancs n m,
    n ∈ descendants ancs e ->
    m ∈ descendants (ancestors n) (elem n) ->
    m ∈ descendants ancs e.
Proof.
  induction e as [t i c tx ch IH] using Element_forall_ind.
  intros ancs n m Hn Hm. set (e := mkElement t i c tx ch) in *.
  apply elem_of_descendants in Hn as (x & Hx & Hn).
  apply elem_of_descendants. exists x. split; [done|]. right.
  rewrite Forall_forall in IH.
  destruct Hn as [-> | Hn]; [exact Hm|].
  apply (IH x Hx (e :: ancs) n m Hn Hm).
Qed.

(** The parent of a node below [e] is [e] or is below [e]. *)
Lemma descendants_parent e :
  forall ancs n p rest,
    n ∈ descendants ancs e ->
    ancestors n = p :: rest ->
    (p = e /\ rest = ancs) \/ mkNode p rest ∈ descendants ancs e.
Proof.
  induction e as [t i c tx ch IH] using Element_forall_ind.
  intros ancs n p rest Hn Hp. set (e := mkElement t i c tx ch) in *.
  apply elem_of_descendants in Hn as (x & Hx & Hn).
  destruct Hn as [-> | Hn].
  - left. cbn [ancestors] in Hp. by injection Hp as <- <-.
  - right. rewrite Forall_forall in IH.
    destruct (IH x Hx (e :: ancs) n p rest Hn Hp) as [[-> ->] | Hin].
    + apply elem_of_descendants. exists x. split; [done | by left].
    + apply elem_of_descendants. exists x. split; [done | by right].
Qed.

Lemma all_nodes_parent doc n p rest :
  n ∈ all_nodes doc -> ancestors n = p :: rest ->
  mkNode p rest ∈ all_nodes doc.
Proof.
  unfold all_nodes. intros [-> | Hn]%elem_of_cons Hp; [done|].
  destruct (descendants_parent doc [] n p rest Hn Hp) as [[-> ->] | Hin].
  - by left.
  - by right.
Qed.

Lemma elem_of_find_elements n css m :
  m ∈ find_elements n css
  <-> m ∈ descendants (ancestors n) (elem n)
      /\ matches (parse_selector css) m = true.
Proof.
  unfold find_elements. by rewrite !list_elem_of_In, filter_In.
Qed.

Lemma elem_of_driver_find_elements doc css m :
  m ∈ driver_find_elements doc css
  <-> m ∈ all_nodes doc /\ matches (parse_selector css) m = true.
Proof.
  unfold driver_find_elements. by rewrite !list_elem_of_In, filter_In.
Qed.

(** A selector of one compound with a tag. *)
Lemma matches_single t cls m :
  matches [mkCompound (Some t) cls] m = true ->
  tag (elem m) = t /\ Forall (fun k => k ∈ classes (elem m)) cls.
Proof.
  unfold matches, matches_compound. cbn [rev app c_tag c_classes].
  rewrite match_up_nil, andb_true_r, andb_true_iff, String.eqb_eq, forallb_forall.
  intros [-> Hcls]. split; [done|]. apply Forall_forall. intros k Hk.
  apply list_elem_of_In in Hk. specialize (Hcls k Hk).
  apply existsb_exists in Hcls as (k' & Hin & ->%String.eqb_eq).
  by apply list_elem_of_In.
Qed.

End TreeFacts.

Section EnumeratorFacts.

(** The result of the enumerator is the result of one of its queries. *)
Lemma enumerate_cases section :
  enumerate_items section = find_elements section "li.artdeco-list__item"
  \/ (exists ul0 rest,
        find_elements section "ul" = ul0 :: rest
        /\ enumerate_items section = find_elements ul0 "li")
  \/ enumerate_items section
     = find_elements section "div.display-flex.flex-column".
Proof.
  unfold enumerate_items.
  destruct (find_elements section "li.artdeco-list__item") as [|x xs] eqn:E1;
    [|by left]. cbn [is_empty].
  destruct (find_elements section "ul") as [|ul0 rest] eqn:E2.
  - right. right. by destruct (find_elements section "div.display-flex.flex-column").
  - destruct (find_elements ul0 "li") as [|y ys] eqn:E3; cbn [is_empty].
    + right. right.
      by destruct (find_elements section "div.display-flex.flex-column").
    + right. left. by exists ul0, rest.
Qed.

End EnumeratorFacts.

(** X5. Every node the enumerator returns lies strictly below the section
    and is a list item ([li]) or a [div] of the classes [display-flex]
    and [flex-column]; the enumerator returns nothing exactly when the
    section has no [li.artdeco-list__item], no [li] below its first [ul]
    (or no [ul]) and no such [div]. *)
Theorem enumerated_items_kind (section : Node) :
  (forall item, item ∈ enumerate_items section ->
     item ∈ descendants (ancestors section) (elem section)
     /\ (tag (elem item) = "li"%string
         \/ (tag (elem item) = "div"%string
             /\ "display-flex"%string ∈ classes (elem item)
             /\ "flex-column"%string ∈ classes (elem item))))
  /\ (enumerate_items section = []
      <-> find_elements section "li.artdeco-list__item" = []
          /\ match find_elements section "ul" with
             | ul0 :: _ => find_elements ul0 "li" = []
             | [] => True
             end
          /\ find_elements section "div.display-flex.flex-column" = []).
Proof.
  split.
  - intros item Hitem.
    destruct (enumerate_cases section) as [E | [(ul0 & rest & Hul & E) | E]];
      rewrite E in Hitem; apply elem_of_find_elements in Hitem as [Hin Hm].
    + split; [done|]. left.
      change (parse_selector "li.artdeco-list__item")
        with [mkCompound (Some "li"%string) ["artdeco-list__item"%string]] in Hm.
      by apply matches_single in Hm as [-> _].
    + assert (ul0 ∈ find_elements section "ul") as Hul0
          by (rewrite Hul; by left).
      apply elem_of_find_elements in Hul0 as [Hul0 _].
      split; [by apply (descendants_trans _ _ ul0)|]. left.
      change (parse_selector "li") with [mkCompound (Some "li"%string) []] in Hm.
      by apply matches_single in Hm as [-> _].
    + split; [done|]. right.
      change (parse_selector "div.display-flex.flex-column")
        with [mkCompound (Some "div"%string)
                         ["display-flex"%string; "flex-column"%string]] in Hm.
      apply matches_single in Hm as [-> Hcls].
      apply Forall_cons in Hcls as [H1 Hcls]. apply Forall_cons in Hcls as [H2 _].
      done.
  - unfold enumerate_items.
    destruct (find_elements section "li.artdeco-list__item") as [|x xs];
      [|split; [done | by intros [? _]]]. cbn [is_empty].
    destruct (find_elements section "ul") as [|ul0 rest].
    + destruct (find_elements section "div.display-flex.flex-column");
        cbn [is_empty]; split; try done; by intros (_ & _ & ?).
    + destruct (find_elements ul0 "li") as [|y ys]; cbn [is_empty].
      * destruct (find_elements section "div.display-flex.flex-column");
          cbn [is_empty]; split; try done; by intros (_ & _ & ?).
      * split; [done | by intros (_ & ? & _)].
Qed.

Lemma enumerated_items_kind_witness :
  Sample.job ∈ descendants (ancestors Sample.card) (elem Sample.card)
  /\ (tag (elem Sample.job) = "li"%string
      \/ (tag (elem Sample.job) = "div"%string
          /\ "display-flex"%string ∈ classes (elem Sample.job)
          /\ "flex-column"%string ∈ classes (elem Sample.job))).
Proof.
  apply (proj1 (enumerated_items_kind Sample.card) Sample.job).
  exact sample_job_enumerated.
Defined.

Section LocatedFacts.

Lemma scan_sections_member label cards c :
  scan_sections label cards = Some c -> c ∈ cards.
Proof.
  induction cards as [|s cards IH]; simpl; [done|].
  destruct (scan_headers label (find_elements s "h2")).
  - intros [= ->]. by left.
  - intros H. right. by apply IH.
Qed.

Lemma head_filter_member {A} (f : A -> bool) (l : list A) (a : A) :
  head (List.filter f l) = Some a -> a ∈ l /\ f a = true.
Proof.
  intros H. rewrite list_elem_of_In, <- filter_In.
  destruct (List.filter f l) as [|x xs]; [done|]. injection H as ->. by left.
Qed.

Lemma ascend_in_document doc :
  forall ancs e n,
    ascend e ancs = Some n ->
    mkNode e ancs ∈ all_nodes doc ->
    tag (elem n) = "section"%string /\ n ∈ all_nodes doc.
Proof.
  induction ancs as [|p ancs IH]; intros e n; rewrite ascend_unfold.
  - destruct (String.eqb (tag e) "section") eqn:E; [|done].
    intros [= <-] Hin. split; [by apply String.eqb_eq | done].
  - destruct (String.eqb (tag e) "section") eqn:E.
    + intros [= <-] Hin. split; [by apply String.eqb_eq | done].
    + intros Hasc Hin. apply (IH p n Hasc).
      by apply (all_nodes_parent doc (mkNode e (p :: ancs))).
Qed.

End LocatedFacts.

(** X6. Whatever the locator returns is an element of the page whose tag
    is [section]: a card with the heading, or the nearest section at or
    above the anchor; never another kind of node, never a node from
    outside the page. *)
Theorem located_node_is_section
        (doc : Element) (label : str) (anchor : string) (n : Node) :
  locate_section doc (driver_find_elements doc "section.artdeco-card") label anchor
  = Some n ->
  tag (elem n) = "section"%string /\ n ∈ all_nodes doc.
Proof.
  unfold locate_section.
  destruct (scan_sections label _) as [c|] eqn:Hscan.
  - intros [= <-]. apply scan_sections_member in Hscan.
    apply elem_of_driver_find_elements in Hscan as [Hin Hm].
    change (parse_selector "section.artdeco-card")
      with [mkCompound (Some "section"%string) ["artdeco-card"%string]] in Hm.
    by apply matches_single in Hm as [-> _].
  - destruct (driver_find_by_id doc anchor) as [a|] eqn:Ha; [|done].
    unfold driver_find_by_id in Ha. apply head_filter_member in Ha as [Hin _].
    unfold parent_section. intros Hasc.
    apply (ascend_in_document doc _ _ _ Hasc). by destruct a.
Qed.

Lemma located_node_is_section_witness :
  tag (elem Sample.card) = "section"%string /\ Sample.card ∈ all_nodes Sample.page.
Proof.
  apply (located_node_is_section Sample.page (lit "Experience") "experience").
  vm_compute. reflexivity.
Defined.

(* ===================================================================== *)
(** ** Name and headline *)
(* ===================================================================== *)

Lemma first_element_text_found doc pre sel post el :
  Forall (fun s => driver_find_element doc s = None) pre ->
  driver_find_element doc sel = Some el ->
  first_element_text doc (pre ++ sel :: post) = Some (strip (node_text el)).
Proof.
  intros Hpre Hsel. induction Hpre as [|s pre Hs _ IH]; simpl.
  - by rewrite Hsel.
  - by rewrite Hs.
Qed.

Lemma first_element_text_none doc sels :
  Forall (fun s => driver_find_element doc s = None) sels ->
  first_element_text doc sels = None.
Proof. induction 1 as [|s sels Hs _ IH]; simpl; [done|]. by rewrite Hs. Qed.

Lemma scrape_loaded_name url doc profile_url :
  redirected url = false ->
  scrape_founder_profile (Loaded url doc) profile_url !! "name"
  = Some (match first_element_text doc name_selectors with
          | Some t => VStr t
          | None => VNone
          end)
  /\ scrape_founder_profile (Loaded url doc) profile_url !! "headline"
     = Some (match first_element_text doc headline_selectors with
             | Some t => VStr t
             | None => VNone
             end).
Proof.
  intros Hr. unfold scrape_founder_profile, initial_data. rewrite Hr.
  destruct (first_element_text doc name_selectors);
    destruct (first_element_text doc headline_selectors);
    split; by read_record.
Qed.

(** X7. On a loaded page, [name] (and likewise [headline]) is the trimmed
    text of the first element of the first selector of its list that
    matches anything, also when that text is empty: later selectors are
    not tried and there is no other fallback. It is [None] exactly when
    no selector of the list matches. *)
Theorem name_from_first_selector
        (url : str) (doc : Element) (profile_url : str)
        (key : string) (sels : list string) :
  redirected url = false ->
  (key = "name"%string /\ sels = name_selectors)
  \/ (key = "headline"%string /\ sels = headline_selectors) ->
  (forall pre sel post el,
     sels = pre ++ sel :: post ->
     Forall (fun s => driver_find_element doc s = None) pre ->
     driver_find_element doc sel = Some el ->
     scrape_founder_profile (Loaded url doc) profile_url !! key
     = Some (VStr (strip (node_text el))))
  /\ (Forall (fun s => driver_find_element doc s = None) sels
      <-> scrape_founder_profile (Loaded url doc) profile_url !! key = Some VNone).
Proof.
  intros Hr Hkey.
  destruct (scrape_loaded_name url doc profile_url Hr) as [Hn Hh].
  assert (scrape_founder_profile (Loaded url doc) profile_url !! key
          = Some (match first_element_text doc sels with
                  | Some t => VStr t
                  | None => VNone
                  end)) as Hk
      by (destruct Hkey as [[-> ->] | [-> ->]]; done).
  clear Hn Hh Hkey. rewrite Hk. split.
  - intros pre sel post el -> Hpre Hsel.
    by rewrite (first_element_text_found doc pre sel post el Hpre Hsel).
  - split.
    + intros Hnone. by rewrite (first_element_text_none doc sels Hnone).
    + intros Hnone. clear Hk.
      induction sels as [|s sels IH]; [constructor|].
      cbn [first_element_text] in Hnone.
      destruct (driver_find_element doc s) as [el|] eqn:Es; [done|].
      constructor; [done | by apply IH].
Qed.

Lemma name_from_first_selector_witness :
  scrape_founder_profile (Loaded Sample.page_url Sample.page) Sample.page_url
    !! "headline" = Some (VStr (strip (lit "Founder"))).
Proof.
  apply (proj1 (name_from_first_selector Sample.page_url Sample.page
                  Sample.page_url "headline" headline_selectors
                  ltac:(vm_compute; reflexivity)
                  ltac:(right; done))
               ["div.text-body-medium.break-words"]%string
               "div.text-body-medium"
               ["div.ph5.pb5 div.text-body-medium"]%string
               (mkNode (Sample.el "div" ["text-body-medium"] (lit "Founder") [])
                       [Sample.body_el; Sample.page])
               eq_refl).
  - repeat constructor.
  - vm_compute. reflexivity.
Defined.

(* ===================================================================== *)
(** ** The report of the analysis *)
(* ===================================================================== *)

Section ReportFacts.

Lemma map_outcome_return {A B} (f : A -> outcome B) (g : A -> B) (l : list A) :
  Forall (fun x => f x = Return (g x)) l ->
  map_outcome f l = Return (map g l).
Proof.
  induction 1 as [|x l Hx _ IH]; [done|]. cbn [map_outcome map].
  by rewrite Hx, IH.
Qed.

Lemma map_outcome_raise {A B} (f : A -> outcome B) (e : exn) (l : list A) :
  Forall (fun x => (exists y, f x = Return y) \/ f x = Raise e) l ->
  ~ Forall (fun x => exists y, f x = Return y) l ->
  map_outcome f l = Raise e.
Proof.
  induction 1 as [|x l Hx _ IH]; intros Hnot.
  - destruct Hnot. constructor.
  - cbn [map_outcome]. destruct Hx as [[y Hy] | Hx].
    + rewrite Hy. cbn [bind]. rewrite IH; [done|].
      intros Hall. apply Hnot. constructor; [by exists y | done].
    + by rewrite Hx.
Qed.

Lemma map_outcome_inv {A B} (f : A -> outcome B) (l : list A) (ys : list B) :
  map_outcome f l = Return ys -> Forall2 (fun x y => f x = Return y) l ys.
Proof.
  revert ys. induction l as [|x l IH]; intros ys; cbn [map_outcome].
  - intros [= <-]. constructor.
  - destruct (f x) as [y|e] eqn:Hx; [|done]. cbn [bind].
    destruct (map_outcome f l) as [ys'|e] eqn:Hl; [|done]. cbn [bind].
    intros [= <-]. constructor; [done | by apply IH].
Qed.

Lemma py_len_sized (v : json) :
  sized v = true -> py_len v = Return (json_size v).
Proof. by destruct v. Qed.

Lemma py_len_unsized (v : json) :
  sized v = false -> py_len v = Raise TypeError.
Proof. by destruct v. Qed.

Lemma lens_sized (vs : list json) :
  Forall (fun v => sized v = true) vs ->
  map_outcome py_len vs = Return (map json_size vs).
Proof.
  intros H. apply map_outcome_return. eapply Forall_impl; [exact H|].
  apply py_len_sized.
Qed.

Lemma lens_unsized (vs : list json) :
  ~ Forall (fun v => sized v = true) vs ->
  map_outcome py_len vs = Raise TypeError.
Proof.
  intros H. apply map_outcome_raise.
  - apply Forall_forall. intros v _. destruct (sized v) eqn:E.
    + left. eexists. by apply py_len_sized.
    + right. by apply py_len_unsized.
  - intros Hall. apply H. eapply Forall_impl; [exact Hall|].
    intros v [n Hn]. destruct v; try done.
Qed.

(** Reading a field of a dict. *)
Lemma normalise_json_field members key o :
  field_view members key = Some o ->
  normalise_json (JObj members) key
  = Return (strip (replace nl space (match o with Some s => s | None => [] end))).
Proof.
  unfold field_view, normalise_json, py_get. cbn [bind].
  destruct (assoc key members) as [[]|]; intros [= <-]; done.
Qed.

Lemma normalise_json_bad_field members key :
  field_view members key = None ->
  normalise_json (JObj members) key = Raise AttributeError.
Proof.
  unfold field_view, normalise_json, py_get. cbn [bind].
  by destruct (assoc key members) as [[]|].
Qed.

Lemma with_field_lookups deg sch :
  with_field "school" sch (with_field "degree" deg ∅) !! "degree" = deg
  /\ with_field "school" sch (with_field "degree" deg ∅) !! "school" = sch.
Proof.
  destruct deg, sch; unfold with_field; split;
    rewrite ?lookup_insert_eq, ?lookup_insert_ne, ?lookup_insert_eq, ?lookup_empty
      by done; done.
Qed.

(** On a readable entry the loop body is the body over entries. *)
Lemma collect_edu_json_entry acc edu d :
  as_entry edu = Some d ->
  collect_edu_json acc edu = Return (collect_edu acc d)
  /\ forall degrees,
       person_degree degrees edu
       = Return (if truthy (normalise d "degree")
                 then degrees ++ [normalise d "degree"] else degrees).
Proof.
  destruct edu as [| | | |?|members]; try done. cbn [as_entry].
  destruct (field_view members (lit "degree")) as [deg|] eqn:Hd; [|done].
  destruct (field_view members (lit "school")) as [sch|] eqn:Hs; [|done].
  intros [= <-]. destruct (with_field_lookups deg sch) as [Ld Ls].
  assert (normalise_json (JObj members) (lit "degree")
          = Return (normalise (with_field "school" sch (with_field "degree" deg ∅))
                              "degree")) as Nd.
  { rewrite (normalise_json_field _ _ _ Hd). unfold normalise, get. by rewrite Ld. }
  assert (normalise_json (JObj members) (lit "school")
          = Return (normalise (with_field "school" sch (with_field "degree" deg ∅))
                              "school")) as Ns.
  { rewrite (normalise_json_field _ _ _ Hs). unfold normalise, get. by rewrite Ls. }
  split.
  - destruct acc as [ds ss]. unfold collect_edu_json, collect_edu.
    by rewrite Nd, Ns.
  - intros degrees. unfold person_degree. by rewrite Nd.
Qed.

Lemma collect_edu_json_unreadable acc edu :
  as_entry edu = None ->
  collect_edu_json acc edu = Raise AttributeError.
Proof.
  destruct acc as [ds ss]. unfold collect_edu_json.
  destruct edu as [| | | |?|members]; try done. cbn [as_entry].
  destruct (field_view members (lit "degree")) as [deg|] eqn:Hd.
  - destruct (field_view members (lit "school")) as [sch|] eqn:Hs; [done|].
    intros _. rewrite (normalise_json_field _ _ _ Hd). cbn [bind].
    by rewrite (normalise_json_bad_field _ _ Hs).
  - intros _. by rewrite (normalise_json_bad_field _ _ Hd).
Qed.

Lemma map_option_length {A B} (f : A -> option B) l ys :
  map_option f l = Some ys -> length ys = length l.
Proof.
  revert ys. induction l as [|x l IH]; intros ys; cbn [map_option].
  - by intros [= <-].
  - destruct (f x); [|done]. destruct (map_option f l) as [ys'|]; [|done].
    intros [= <-]. cbn [length]. by rewrite (IH ys').
Qed.

Lemma fold_entries items es acc :
  map_option as_entry items = Some es ->
  fold_outcome collect_edu_json items acc = Return (fold_left collect_edu es acc).
Proof.
  revert es acc. induction items as [|x items IH]; intros es acc; cbn [map_option].
  - by intros [= <-].
  - destruct (as_entry x) as [d|] eqn:Hx; [|done].
    destruct (map_option as_entry items) as [es'|]; [|done].
    intros [= <-]. cbn [fold_outcome fold_left].
    rewrite (proj1 (collect_edu_json_entry acc x d Hx)). cbn [bind]. by apply IH.
Qed.

Lemma fold_unreadable items acc :
  map_option as_entry items = None ->
  fold_outcome collect_edu_json items acc = Raise AttributeError.
Proof.
  revert acc. induction items as [|x items IH]; intros acc; cbn [map_option]; [done|].
  cbn [fold_outcome]. destruct (as_entry x) as [d|] eqn:Hx.
  - rewrite (proj1 (collect_edu_json_entry acc x d Hx)). cbn [bind].
    destruct (map_option as_entry items); [done|]. intros _. by apply IH.
  - intros _. by rewrite (collect_edu_json_unreadable acc x Hx).
Qed.

Lemma fold_person items es degrees :
  map_option as_entry items = Some es ->
  fold_outcome person_degree items degrees = Return (degrees ++ degrees_of es).
Proof.
  revert es degrees. induction items as [|x items IH]; intros es degrees;
    cbn [map_option].
  - intros [= <-]. cbn [fold_outcome]. by rewrite app_nil_r.
  - destruct (as_entry x) as [d|] eqn:Hx; [|done].
    destruct (map_option as_entry items) as [es'|] eqn:Hes; [|done].
    intros [= <-]. cbn [fold_outcome].
    rewrite (proj2 (collect_edu_json_entry ([], []) x d Hx)). cbn [bind].
    rewrite (IH es' _ eq_refl). unfold degrees_of. cbn [map List.filter].
    rewrite normalise_eq.
    destruct (truthy (strip (breaks_to_spaces (get d "degree"))));
      by rewrite <- ?app_assoc.
Qed.

Lemma as_entries_sized v es : as_entries v = Some es -> sized v = true.
Proof. by destruct v. Qed.

Lemma as_entries_size v es : as_entries v = Some es -> json_size v = length es.
Proof.
  unfold as_entries. destruct v; try done; cbn [py_iter];
    intros H%map_option_length; rewrite H; unfold json_size; cbn [py_len];
    by rewrite ?length_map.
Qed.

End ReportFacts.

Section SummaryFacts.

Lemma as_entries_items v es :
  as_entries v = Some es ->
  exists items, py_iter v = Return items /\ map_option as_entry items = Some es.
Proof.
  unfold as_entries. destruct (py_iter v) as [items|e]; [|done]. eauto.
Qed.

Lemma collect_rows_view ped ess acc :
  Forall2 (fun v es => as_entries v = Some es) ped ess ->
  fold_outcome
    (fun acc edus =>
       let! items := py_iter edus in
       fold_outcome collect_edu_json items acc) ped acc
  = Return (fold_left (fun acc edus => fold_left collect_edu edus acc) ess acc).
Proof.
  intros H. revert acc. induction H as [|v es ped ess Hv _ IH]; intros acc; [done|].
  cbn [fold_outcome fold_left].
  destruct (as_entries_items v es Hv) as (items & -> & Hitems). cbn [bind].
  rewrite (fold_entries items es acc Hitems). cbn [bind]. apply IH.
Qed.

Lemma collect_rows_unreadable ped acc :
  Forall (fun v => sized v = true) ped ->
  ~ Forall (fun v => is_Some (as_entries v)) ped ->
  fold_outcome
    (fun acc edus =>
       let! items := py_iter edus in
       fold_outcome collect_edu_json items acc) ped acc
  = Raise AttributeError.
Proof.
  intros Hs. revert acc. induction Hs as [|v ped Hv _ IH]; intros acc Hnot.
  - destruct Hnot. constructor.
  - cbn [fold_outcome]. destruct (as_entries v) as [es|] eqn:Ev.
    + destruct (as_entries_items v es Ev) as (items & -> & Hitems). cbn [bind].
      rewrite (fold_entries items es acc Hitems). cbn [bind]. apply IH.
      intros Hall. apply Hnot. constructor; [by rewrite Ev | done].
    + unfold as_entries in Ev. destruct (py_iter v) as [items|e] eqn:Ei.
      * cbn [bind]. by rewrite (fold_unreadable items acc Ev).
      * by destruct v.
Qed.

Lemma founders_view ped ess :
  Forall2 (fun v es => as_entries v = Some es) ped ess ->
  forall df nexp,
    map_outcome summarise_row
      (combine df (combine nexp (combine (map length ess) ped)))
    = Return (map founder_of (combine df (combine nexp ess))).
Proof.
  induction 1 as [|v es ped ess Hv _ IH]; intros df nexp.
  - destruct df, nexp; done.
  - destruct df as [|r df]; [done|]. destruct nexp as [|n nexp]; [done|].
    cbn [map combine map_outcome summarise_row].
    destruct (as_entries_items v es Hv) as (items & -> & Hitems). cbn [bind].
    rewrite (fold_person items es [] Hitems). cbn [bind app].
    by rewrite IH.
Qed.

Lemma sizes_view ped ess :
  Forall2 (fun v es => as_entries v = Some es) ped ess ->
  Forall (fun v => sized v = true) ped /\ map json_size ped = map length ess.
Proof.
  induction 1 as [|v es ped ess Hv _ [IH1 IH2]]; [done|]. split.
  - constructor; [by apply (as_entries_sized v es) | done].
  - cbn [map]. by rewrite IH2, (as_entries_size v es Hv).
Qed.

(** The summary, when every decoded value has a length and the education
    column reads as entries. *)
Lemma summarise_view df pe ped ess :
  Forall (fun v => sized v = true) pe ->
  Forall2 (fun v es => as_entries v = Some es) ped ess ->
  summarise df pe ped
  = Return (mkSummary (length df) (map json_size pe) (map length ess)
                      (fst (collect ess)) (snd (collect ess))
                      (map founder_of (combine df (combine (map json_size pe) ess)))).
Proof.
  intros Hpe Hped. destruct (sizes_view ped ess Hped) as [Hsized Hsizes].
  unfold summarise. rewrite (lens_sized pe Hpe). cbn [bind].
  rewrite (lens_sized ped Hsized). cbn [bind]. rewrite Hsizes.
  unfold collect_json. rewrite (collect_rows_view ped ess _ Hped). cbn [bind].
  by rewrite (founders_view ped ess Hped).
Qed.

Lemma readable_entries ped :
  Forall (fun v => is_Some (as_entries v)) ped ->
  exists ess, Forall2 (fun v es => as_entries v = Some es) ped ess.
Proof.
  induction 1 as [|v ped [es Hv] _ [ess IH]]; [by exists []|].
  exists (es :: ess). by constructor.
Qed.

(** The three ways [summarise] ends. *)
Lemma summarise_cases df pe ped :
  (~ Forall (fun v => sized v = true) (pe ++ ped)
   /\ summarise df pe ped = Raise TypeError)
  \/ (Forall (fun v => sized v = true) (pe ++ ped)
      /\ ~ Forall (fun v => is_Some (as_entries v)) ped
      /\ summarise df pe ped = Raise AttributeError)
  \/ (Forall (fun v => sized v = true) (pe ++ ped)
      /\ Forall (fun v => is_Some (as_entries v)) ped
      /\ exists s, summarise df pe ped = Return s).
Proof.
  destruct (decide (Forall (fun v => sized v = true) pe)) as [Hpe|Hpe].
  - destruct (decide (Forall (fun v => sized v = true) ped)) as [Hped|Hped].
    + right.
      destruct (decide (Forall (fun v => is_Some (as_entries v)) ped)) as [He|He].
      * right. split; [by apply Forall_app|]. split; [done|].
        destruct (readable_entries ped He) as [ess Hess].
        eexists. by apply (summarise_view df pe ped ess).
      * left. split; [by apply Forall_app|]. split; [done|].
        unfold summarise. rewrite (lens_sized pe Hpe). cbn [bind].
        rewrite (lens_sized ped Hped). cbn [bind]. unfold collect_json.
        by rewrite (collect_rows_unreadable ped _ Hped He).
    + left. split; [by intros [_ ?]%Forall_app|].
      unfold summarise. rewrite (lens_sized pe Hpe). cbn [bind].
      by rewrite (lens_unsized ped Hped).
  - left. split; [by intros [? _]%Forall_app|].
    unfold summarise. by rewrite (lens_unsized pe Hpe).
Qed.

End SummaryFacts.

Section AnalyzeFacts.

Context (loads : str -> option json).

Lemma parse_no_decode_error (c : cell) :
  parse_experiences loads c <> Raise JSONDecodeError
  /\ parse_education loads c <> Raise JSONDecodeError.
Proof.
  unfold parse_experiences, parse_education.
  destruct c as [|s|n]; cbn [isna cell_strip bind]; [done| |done].
  destruct (is_empty (strip s)); [done|]. cbn [json_loads try_except].
  by destruct (loads s).
Qed.

Lemma map_outcome_never {A B} (f : A -> outcome B) (e : exn) (l : list A) :
  (forall x, f x <> Raise e) -> map_outcome f l <> Raise e.
Proof.
  intros Hf. induction l as [|x l IH]; [done|]. cbn [map_outcome].
  destruct (f x) as [y|e'] eqn:Hx; cbn [bind].
  - destruct (map_outcome f l) as [ys|e'']; [done|]. cbn [bind]. congruence.
  - intros [= ->]. by apply (Hf x).
Qed.

Lemma analyze_inv (df : list Row) (s : Summary) :
  analyze_founder_profiles loads df = Return s ->
  exists pe ped,
    Forall2 (fun r v => parse_experiences loads (row_experiences r) = Return v) df pe
    /\ Forall2 (fun r v => parse_education loads (row_education r) = Return v) df ped
    /\ summarise df pe ped = Return s.
Proof.
  unfold analyze_founder_profiles.
  destruct (map_outcome _ df) as [pe|e] eqn:Hpe; [|done]. cbn [bind].
  destruct (map_outcome (fun r => parse_education _ _) df) as [ped|e] eqn:Hped;
    [|done]. cbn [bind].
  intros Hs. exists pe, ped.
  split; [by apply map_outcome_inv in Hpe|].
  split; [by apply map_outcome_inv in Hped | done].
Qed.

Lemma reads_as_column df ped ess :
  Forall2 (fun r v => parse_education loads (row_education r) = Return v) df ped ->
  reads_as loads df ess ->
  Forall2 (fun v es => as_entries v = Some es) ped ess.
Proof.
  intros H. revert ess. induction H as [|r v df ped Hv _ IH]; intros ess Hr.
  - inversion Hr. constructor.
  - inversion Hr as [|r' es df' ess' (v' & Hv' & He) Hrest]; subst.
    constructor; [congruence | by apply IH].
Qed.

Lemma column_reads_as df ped ess :
  Forall2 (fun r v => parse_education loads (row_education r) = Return v) df ped ->
  Forall2 (fun v es => as_entries v = Some es) ped ess ->
  reads_as loads df ess.
Proof.
  intros H. revert ess. induction H as [|r v df ped Hv _ IH]; intros ess Hr.
  - inversion Hr. constructor.
  - inversion Hr as [|v' es ped' ess' He Hrest]; subst.
    constructor; [by exists v | by apply IH].
Qed.

Lemma analyze_readable df s :
  analyze_founder_profiles loads df = Return s ->
  exists ess, reads_as loads df ess.
Proof.
  intros (pe & ped & _ & Hped & Hs)%analyze_inv.
  destruct (summarise_cases df pe ped) as [(_ & H) | [(_ & _ & H) | (_ & He & _)]];
    [congruence | congruence |].
  destruct (readable_entries ped He) as [ess Hess].
  exists ess. by apply (column_reads_as df ped).
Qed.

Lemma analyze_entries df s ess :
  analyze_founder_profiles loads df = Return s ->
  reads_as loads df ess ->
  exists nexp,
    length nexp = length df /\ length ess = length df
    /\ s = mkSummary (length df) nexp (map length ess)
                     (fst (collect ess)) (snd (collect ess))
                     (map founder_of (combine df (combine nexp ess))).
Proof.
  intros (pe & ped & Hpe & Hped & Hs)%analyze_inv Hr.
  pose proof (reads_as_column df ped ess Hped Hr) as Hess.
  destruct (summarise_cases df pe ped) as [(_ & H) | [(_ & _ & H) | (Hsz & _ & _)]];
    [congruence | congruence |].
  apply Forall_app in Hsz as [Hsz _].
  rewrite (summarise_view df pe ped ess Hsz Hess) in Hs. injection Hs as <-.
  exists (map json_size pe). rewrite length_map.
  apply Forall2_length in Hpe, Hr. by rewrite <- Hpe, <- Hr.
Qed.

End AnalyzeFacts.

Section FounderFacts.

Lemma founders_columns (df : list Row) :
  forall (nexp : list nat) (ess : list (list entry)),
    length nexp = length df -> length ess = length df ->
    let founders := map founder_of (combine df (combine nexp ess)) in
    map f_name founders = map row_name df
    /\ map f_headline founders = map row_headline df
    /\ map f_num_experiences founders = nexp
    /\ map f_num_educations founders = map length ess
    /\ map f_degrees founders = map degrees_of ess.
Proof.
  induction df as [|r df IH]; intros [|n nexp] [|es ess] Hn He; try done.
  cbn [length] in Hn, He.
  destruct (IH nexp ess ltac:(lia) ltac:(lia)) as (H1 & H2 & H3 & H4 & H5).
  cbn zeta in *. cbn [combine map founder_of f_name f_headline f_num_experiences
                      f_num_educations f_degrees].
  by rewrite H1, H2, H3, H4, H5.
Qed.

Lemma degrees_of_concat (ess : list (list entry)) :
  concat (map degrees_of ess) = fst (collect ess).
Proof.
  unfold collect. rewrite collect_rows. cbn [fst app].
  induction ess as [|es ess IH]; [done|].
  cbn [map concat]. by rewrite map_app, List.filter_app, IH.
Qed.

Lemma value_counts_concat (ls : list (list str)) (k : str) :
  value_counts (concat ls) k = list_sum (map (fun l => value_counts l k) ls).
Proof.
  unfold value_counts. induction ls as [|l ls IH]; [done|].
  cbn [concat map list_sum]. by rewrite List.filter_app, length_app, IH.
Qed.

Lemma breaks_to_spaces_free (s : str) : ~ occurs_in nl (breaks_to_spaces s).
Proof.
  intros (a & b & H).
  assert (In 10%N (breaks_to_spaces s)) as Hin.
  { rewrite H. apply in_or_app. right. by left. }
  unfold breaks_to_spaces in Hin. apply in_map_iff in Hin as (c & Hc & _).
  destruct (c =? 10)%N eqn:E; [done|]. apply N.eqb_neq in E. congruence.
Qed.

Lemma table_key_clean (es : list entry) (key : string) (k : str) :
  k ∈ List.filter truthy
        (map (fun edu => strip (breaks_to_spaces (get edu key))) es) ->
  k <> [] /\ trimmed k /\ ~ occurs_in nl k.
Proof.
  rewrite list_elem_of_In, filter_In, in_map_iff.
  intros [(edu & <- & _) Ht]. split; [by apply truthy_true|].
  split; [apply strip_trimmed|]. intros Ho.
  apply (breaks_to_spaces_free (get edu key)).
  eapply occurs_in_trans; [exact Ho | apply strip_occurs].
Qed.

Lemma filter_length_le {A} (f : A -> bool) (l : list A) :
  length (List.filter f l) <= length l.
Proof. induction l as [|x l IH]; simpl; [lia|]. destruct (f x); simpl; lia. Qed.

Lemma length_concat_sum {A} (ls : list (list A)) :
  length (concat ls) = list_sum (map length ls).
Proof.
  induction ls as [|l ls IH]; [done|]. cbn [concat map list_sum].
  by rewrite length_app, IH.
Qed.

End FounderFacts.

(** X8. From the parsed columns on, the analysis ends in one of three
    ways. It raises [TypeError] exactly when some decoded value of either
    column has no length (a number, a boolean, null). Otherwise it raises
    [AttributeError] exactly when the loop over some education value meets
    something that is not a dict with string (or no) [degree] and
    [school]. Otherwise it returns. The decoder's own error never leaves
    [analyze_founder_profiles]. *)
Theorem report_outcomes
        (loads : str -> option json) (df : list Row) (pe ped : list json) :
  (summarise df pe ped = Raise TypeError
   <-> ~ Forall (fun v => sized v = true) (pe ++ ped))
  /\ (summarise df pe ped = Raise AttributeError
      <-> Forall (fun v => sized v = true) (pe ++ ped)
          /\ ~ Forall (fun v => is_Some (as_entries v)) ped)
  /\ ((exists s, summarise df pe ped = Return s)
      <-> Forall (fun v => sized v = true) (pe ++ ped)
          /\ Forall (fun v => is_Some (as_entries v)) ped)
  /\ analyze_founder_profiles loads df <> Raise JSONDecodeError.
Proof.
  split; [|split; [|split]].
  - destruct (summarise_cases df pe ped)
      as [(H1 & ->) | [(H1 & H2 & ->) | (H1 & H2 & s & ->)]];
      split; try done.
  - destruct (summarise_cases df pe ped)
      as [(H1 & ->) | [(H1 & H2 & ->) | (H1 & H2 & s & ->)]];
      split; try done; by intros [? ?].
  - destruct (summarise_cases df pe ped)
      as [(H1 & ->) | [(H1 & H2 & ->) | (H1 & H2 & s & ->)]];
      split; try done; try (by intros [? ?]); try (by intros [? ?]; eauto).
  - unfold analyze_founder_profiles.
    destruct (map_outcome _ df) as [pe'|e] eqn:Hpe; cbn [bind].
    + destruct (map_outcome (fun r => parse_education _ _) df) as [ped'|e] eqn:Hped;
        cbn [bind].
      * destruct (summarise_cases df pe' ped')
          as [(_ & ->) | [(_ & _ & ->) | (_ & _ & s & ->)]]; done.
      * intros [= ->]. revert Hped. apply map_outcome_never.
        intros r. apply parse_no_decode_error.
    + intros [= ->]. revert Hpe. apply map_outcome_never.
      intros r. apply parse_no_decode_error.
Qed.

Lemma report_outcomes_witness :
  summarise [Tables.empty_row] [JNum (lit "5")] [JArr []] = Raise TypeError.
Proof.
  apply (proj1 (report_outcomes Sample.loads_known [Tables.empty_row]
                  [JNum (lit "5")] [JArr []])).
  intros H. apply Forall_cons in H as [H _]. discriminate H.
Defined.

(** X9. When the analysis returns and the education cells read as the
    entries [ess], row by row (a missing, blank or undecodable cell reads
    as no entry), then the row count is the number of rows, the education
    counts are the lengths of [ess], and the values behind the degree and
    school tables are those of [collect] on [ess]. *)
Theorem analysis_reads_entries
        (loads : str -> option json) (df : list Row) (s : Summary)
        (ess : list (list entry)) :
  analyze_founder_profiles loads df = Return s ->
  reads_as loads df ess ->
  total_founders s = length df
  /\ length (num_experiences s) = length df
  /\ num_educations s = map length ess
  /\ all_degrees s = fst (collect ess)
  /\ all_schools s = snd (collect ess)
  /\ (forall r,
        row_education r = Missing
        \/ (exists t, row_education r = Text t /\ (strip t = [] \/ loads t = None)) ->
        reads_as loads [r] [[]]).
Proof.
  intros Hs Hr.
  destruct (analyze_entries loads df s ess Hs Hr) as (nexp & Hn & He & ->).
  cbn [total_founders num_experiences num_educations all_degrees all_schools].
  repeat (split; [done|]).
  intros r Hcell. constructor; [|constructor].
  exists (JArr []). split; [|done].
  destruct Hcell as [-> | (t & -> & [Hb | Hl])]; [done | |].
  - by apply parse_text_blank.
  - destruct (decide (strip t = [])) as [Hb|Hb]; [by apply parse_text_blank|].
    rewrite (proj2 (parse_text_decode loads t Hb)). by rewrite Hl.
Qed.

Lemma analysis_reads_entries_witness :
  match analyze_founder_profiles Sample.loads_known Tables.two_rows with
  | Return s => all_schools s = snd (collect [[Tables.mit_entry]; []])
  | Raise _ => False
  end.
Proof.
  destruct (analyze_founder_profiles Sample.loads_known Tables.two_rows)
    as [s|e] eqn:E; [|vm_compute in E; discriminate E].
  apply (analysis_reads_entries Sample.loads_known Tables.two_rows s
           [[Tables.mit_entry]; []] E).
  constructor; [|constructor; [|constructor]].
  - exists Sample.mit_json. split; vm_compute; reflexivity.
  - exists (JArr []). split; vm_compute; reflexivity.
Defined.

(** X10. When the analysis returns there is one founder summary per row,
    in row order, carrying the row's name, headline and the two counts of
    the count columns; the founders' degree lists, put end to end, are
    the values behind the degree table, so a degree's count in the table
    is the sum of its counts over the founders. *)
Theorem founders_match_tables
        (loads : str -> option json) (df : list Row) (s : Summary) :
  analyze_founder_profiles loads df = Return s ->
  map f_name (founder_summaries s) = map row_name df
  /\ map f_headline (founder_summaries s) = map row_headline df
  /\ map f_num_experiences (founder_summaries s) = num_experiences s
  /\ map f_num_educations (founder_summaries s) = num_educations s
  /\ concat (map f_degrees (founder_summaries s)) = all_degrees s
  /\ (forall k,
        value_counts (all_degrees s) k
        = list_sum (map (fun f => value_counts (f_degrees f) k)
                        (founder_summaries s))).
Proof.
  intros Hs. destruct (analyze_readable loads df s Hs) as [ess Hr].
  destruct (analyze_entries loads df s ess Hs Hr) as (nexp & Hn & He & ->).
  destruct (founders_columns df nexp ess Hn He) as (H1 & H2 & H3 & H4 & H5).
  cbn zeta in *.
  cbn [founder_summaries num_experiences num_educations all_degrees].
  repeat (split; [done|]).
  assert (concat (map f_degrees
                      (map founder_of (combine df (combine nexp ess))))
          = fst (collect ess)) as Hc
      by (rewrite H5; apply degrees_of_concat).
  split; [done|]. intros k. rewrite <- Hc, value_counts_concat.
  by rewrite map_map.
Qed.

Lemma founders_match_tables_witness :
  match analyze_founder_profiles Sample.loads_known Tables.two_rows with
  | Return s => map f_name (founder_summaries s) = [Text (lit "Ada"); Missing]
  | Raise _ => False
  end.
Proof.
  destruct (analyze_founder_profiles Sample.loads_known Tables.two_rows)
    as [s|e] eqn:E; [|vm_compute in E; discriminate E].
  exact (proj1 (founders_match_tables Sample.loads_known Tables.two_rows s E)).
Defined.

(** X11. When the analysis returns, every value behind the degree and
    school tables is a non-empty string without white space at its ends
    and without a line break, and neither table counts more values than
    there are education entries. *)
Theorem table_keys_clean
        (loads : str -> option json) (df : list Row) (s : Summary) :
  analyze_founder_profiles loads df = Return s ->
  (forall k, k ∈ all_degrees s \/ k ∈ all_schools s ->
     k <> [] /\ trimmed k /\ ~ occurs_in nl k)
  /\ length (all_degrees s) <= list_sum (num_educations s)
  /\ length (all_schools s) <= list_sum (num_educations s).
Proof.
  intros Hs. destruct (analyze_readable loads df s Hs) as [ess Hr].
  destruct (analyze_entries loads df s ess Hs Hr) as (nexp & Hn & He & ->).
  cbn [num_educations all_degrees all_schools].
  unfold collect. rewrite collect_rows. cbn [fst snd app].
  split; [|split].
  - intros k [Hk | Hk]; by apply table_key_clean in Hk.
  - rewrite <- length_concat_sum. etrans; [apply filter_length_le|].
    by rewrite length_map.
  - rewrite <- length_concat_sum. etrans; [apply filter_length_le|].
    by rewrite length_map.
Qed.

Lemma table_keys_clean_witness :
  match analyze_founder_profiles Sample.loads_known Tables.two_rows with
  | Return s => length (all_schools s) <= list_sum (num_educations s)
  | Raise _ => False
  end.
Proof.
  destruct (analyze_founder_profiles Sample.loads_known Tables.two_rows)
    as [s|e] eqn:E; [|vm_compute in E; discriminate E].
  exact (proj2 (proj2 (table_keys_clean Sample.loads_known Tables.two_rows s E))).
Defined.

(* ===================================================================== *)
(** ** The batch run *)
(* ===================================================================== *)

Section BatchFacts.

Import Batch.

Lemma succ_mod3 (m : nat) :
  (m mod 3 = 0 /\ S m mod 3 = 1) \/ (m mod 3 = 1 /\ S m mod 3 = 2)
  \/ (m mod 3 = 2 /\ S m mod 3 = 0).
Proof.
  pose proof (Nat.div_mod_eq m 3) as H.
  pose proof (Nat.mod_upper_bound m 3 ltac:(lia)) as Hr.
  assert (S m = S (m mod 3) + (m / 3) * 3) as HS by lia.
  rewrite HS, Nat.Div0.mod_add.
  destruct (m mod 3) as [|[|[|r]]]; [left | right; left | right; right | lia]; done.
Qed.

Lemma waited_step (m : nat) : waited (S m) = waited m + (5 + 5 * (S m mod 3)).
Proof.
  unfold waited.
  destruct (succ_mod3 m) as [[-> ->] | [[-> ->] | [-> ->]]]; cbn [Nat.eqb]; lia.
Qed.

Lemma waited_bounds (n : nat) : 10 * n <= waited n <= 10 * n + 5.
Proof. unfold waited. destruct (n mod 3 =? 2); lia. Qed.

(** What the loop does to the world and to [results]. *)
Lemma visit_all_spec navigate links :
  forall i w results,
    snd (visit_all navigate links i w results)
    = results ++ records navigate links i
    /\ typed (fst (visit_all navigate links i w results)) = typed w
    /\ quit (fst (visit_all navigate links i w results)) = quit w
    /\ csv (fst (visit_all navigate links i w results)) = csv w
    /\ saved (fst (visit_all navigate links i w results))
       = saved w ++ replicate (loaded_visits navigate links i) "profile_page.html"%string
    /\ slept (fst (visit_all navigate links i w results)) + waited (length results)
       = slept w + 8 * loaded_visits navigate links i
         + waited (length results + length links).
Proof.
  induction links as [|link links IH]; intros i w results.
  - cbn [visit_all records loaded_visits fst snd replicate length].
    rewrite !app_nil_r, !Nat.add_0_r. repeat split; lia.
  - cbn [visit_all records loaded_visits length].
    set (nav := navigate i link).
    set (results' := results ++ [scrape_founder_profile nav link]).
    set (w' := sleep (delay results') (scrape_effects nav w)).
    destruct (IH (S i) w' results') as (H1 & H2 & H3 & H4 & H5 & H6).
    assert (length results' = S (length results)) as Hlen
        by (unfold results'; rewrite length_app; simpl; lia).
    rewrite H1, H2, H3, H4, H5. unfold results' at 1. rewrite <- app_assoc.
    split; [done|].
    assert (typed w' = typed w /\ quit w' = quit w /\ csv w' = csv w
            /\ saved w' = saved w
                 ++ match nav with
                    | NavError => []
                    | Loaded _ _ => ["profile_page.html"%string]
                    end
            /\ slept w' = slept w
                 + match nav with NavError => 0 | Loaded _ _ => 8 end
                 + delay results') as (T & Q & C & Sv & Sl).
    { unfold w', scrape_effects. destruct nav; cbn; rewrite ?app_nil_r;
        repeat split; lia. }
    rewrite T, Q, C, Sv. repeat (split; [done|]). split.
    + rewrite <- app_assoc. f_equal. by destruct nav.
    + rewrite Hlen in H6. rewrite waited_step in H6.
      rewrite Sl in H6. unfold delay in H6. rewrite Hlen in H6.
      replace (length results + S (length links))
        with (S (length results) + length links) by lia.
      destruct nav; lia.
Qed.

Lemma records_length navigate links i :
  length (records navigate links i) = length links.
Proof.
  revert i. induction links as [|l links IH]; intros i; [done|].
  cbn [records length]. by rewrite IH.
Qed.

Lemma records_lookup navigate links :
  forall i j link,
    links !! j = Some link ->
    records navigate links i !! j
    = Some (scrape_founder_profile (navigate (i + j) link) link).
Proof.
  induction links as [|l links IH]; intros i j link; [done|].
  destruct j as [|j]; cbn [records].
  - intros [= ->]. by rewrite Nat.add_0_r.
  - intros H. etrans; [exact (IH (S i) j link H)|]. do 3 f_equal. lia.
Qed.

(** The record of any navigation is well shaped. *)
Lemma scrape_shape nav profile_url :
  well_shaped profile_url (scrape_founder_profile nav profile_url).
Proof.
  destruct nav as [|url doc]; [apply initial_data_shaped|].
  unfold scrape_founder_profile.
  destruct (redirected url); [apply initial_data_shaped|].
  pose proof (first_element_text_trimmed doc name_selectors) as Hname.
  pose proof (first_element_text_trimmed doc headline_selectors) as Hhead.
  destruct (first_element_text doc name_selectors) as [n|];
    destruct (first_element_text doc headline_selectors) as [h|];
    unfold well_shaped, initial_data;
    (split; [rewrite !dom_insert_L, dom_empty_L; set_solver|]);
    (split; [by read_record|]);
    (split; [first [ left; by read_record
                   | right; eexists; split; [by read_record | by apply Hname] ]|]);
    (split; [first [ left; by read_record
                   | right; eexists; split; [by read_record | by apply Hhead] ]|]);
    split; eexists; by read_record.
Qed.

Lemma to_row_shaped dumps url item :
  well_shaped url item ->
  exists row, to_row dumps item = Some row
              /\ row !! "profile_url" = Some (VStr url)
              /\ row !! "name" = item !! "name"
              /\ row !! "headline" = item !! "headline".
Proof.
  intros (_ & Hu & Hn & Hh & [e He] & [d Hd]). unfold to_row.
  rewrite Hu, He, Hd.
  destruct Hn as [Hn | (n & Hn & _)]; destruct Hh as [Hh | (h & Hh & _)];
    rewrite Hn, Hh; eexists; (split; [reflexivity|]);
    repeat split; by read_record.
Qed.

Lemma rows_of_records dumps navigate links i :
  exists rows,
    map_option (to_row dumps) (records navigate links i) = Some rows
    /\ Forall2 (fun item row => to_row dumps item = Some row)
               (records navigate links i) rows.
Proof.
  revert i. induction links as [|l links IH]; intros i.
  - exists []. split; [done | constructor].
  - cbn [records map_option].
    destruct (to_row_shaped dumps l _ (scrape_shape (navigate i l) l))
      as (row & Hrow & _).
    destruct (IH (S i)) as (rows & Hrows & Hall).
    exists (row :: rows). rewrite Hrow, Hrows. split; [done | by constructor].
Qed.

(** The run, by cases on the login form and the table. *)
Lemma main_cases dumps table login_page landing email password navigate :
  let w := main dumps table login_page landing email password navigate in
  (driver_find_by_id login_page "username" = None
   /\ w = driver_quit (save_page_source "login_page_error.html" (sleep 2 start)))
  \/ (is_Some (driver_find_by_id login_page "username")
      /\ driver_find_by_id login_page "password" = None
      /\ w = driver_quit (save_page_source "login_page_error.html"
                            (send_keys "username" email (sleep 2 start))))
  \/ (form_complete login_page
      /\ exists w0,
           linkedin_login login_page landing email password start = (w0, true)
           /\ typed w0 = [("username"%string, email); ("password"%string, password);
                          ("password"%string, RETURN)]
           /\ slept w0 = 32 /\ quit w0 = false /\ csv w0 = None
           /\ saved w0
              = (if contains (lit "feed") landing || contains (lit "checkpoint") landing
                 then [] else ["login_result_page.html"%string])
           /\ match links_of table with
              | None => w = w0
              | Some links =>
                  exists rows,
                    map_option (to_row dumps) (records navigate links 0) = Some rows
                    /\ w = to_csv rows
                             (driver_quit (fst (visit_all navigate links 0 w0 [])))
              end).
Proof.
  cbn zeta. unfold main, linkedin_login, form_complete.
  destruct (driver_find_by_id login_page "username") as [u|] eqn:Eu;
    [|left; done].
  destruct (driver_find_by_id login_page "password") as [p|] eqn:Ep;
    [|right; left; done].
  right. right. split; [done|].
  set (w0 := if contains (lit "feed") landing || contains (lit "checkpoint") landing
             then sleep 30 (send_keys "password" RETURN
                    (send_keys "password" password
                       (send_keys "username" email (sleep 2 start))))
             else save_page_source "login_result_page.html"
                    (sleep 30 (send_keys "password" RETURN
                       (send_keys "password" password
                          (send_keys "username" email (sleep 2 start)))))).
  exists w0.
  assert ((if contains (lit "feed") landing || contains (lit "checkpoint") landing
           then (sleep 30 (send_keys "password" RETURN
                    (send_keys "password" password
                       (send_keys "username" email (sleep 2 start)))), true)
           else (save_page_source "login_result_page.html"
                    (sleep 30 (send_keys "password" RETURN
                       (send_keys "password" password
                          (send_keys "username" email (sleep 2 start))))), true))
          = (w0, true)) as ->
      by (unfold w0; by destruct (_ || _)).
  split; [done|].
  repeat (split; [unfold w0; by destruct (_ || _)|]).
  fold (links_of table). destruct (links_of table) as [links|]; [|done].
  destruct (rows_of_records dumps navigate links 0) as (rows & Hrows & _).
  exists rows. split; [done|].
  destruct (visit_all navigate links 0 w0 []) as [w1 results] eqn:Ev.
  pose proof (visit_all_spec navigate links 0 w0 []) as (Hres & _).
  rewrite Ev in Hres. cbn [snd app] in Hres. subst results.
  by rewrite Hrows.
Qed.

End BatchFacts.

Section BatchTheorems.

Import Batch.

Lemma map_option_Forall2 {A B} (f : A -> option B) (l : list A) (ys : list B) :
  map_option f l = Some ys -> Forall2 (fun x y => f x = Some y) l ys.
Proof.
  revert ys. induction l as [|x l IH]; intros ys; cbn [map_option].
  - intros [= <-]. constructor.
  - destruct (f x) as [y|] eqn:Hx; [|done].
    destruct (map_option f l) as [ys'|]; [|done].
    intros [= <-]. constructor; [done | by apply IH].
Qed.

Lemma form_incomplete login_page :
  ~ form_complete login_page ->
  driver_find_by_id login_page "username" = None
  \/ (is_Some (driver_find_by_id login_page "username")
      /\ driver_find_by_id login_page "password" = None).
Proof.
  unfold form_complete. intros H.
  destruct (driver_find_by_id login_page "username") as [u|]; [|by left].
  destruct (driver_find_by_id login_page "password") as [p|]; [|by right].
  destruct H. by split.
Qed.


Lemma run_form_complete : form_complete Runs.login_form.
Proof. split; vm_compute; by eexists. Qed.






End BatchTheorems.
